(** * appscale.tools.admin_api.handler: the Admin API UrlMap resource

    A shallow embedding of [src/appscale/tools/admin_api/handler.py]: the
    [Handler] class with its validation tables, [from_yaml] and
    [to_api_dict], together with the regular expression that validates
    [expiration] values. *)

From Stdlib Require Import ZArith List String Ascii Bool Lia DecimalString.
Import ListNotations.
Local Open Scope Z_scope.
Local Open Scope string_scope.
Local Open Scope list_scope.

Set Implicit Arguments.
Set Warnings "-register-all".

(** ** Python values

    What a parsed YAML document can hold: [None], booleans, integers,
    floats, strings, lists and mappings.  A mapping is kept as the list of
    its items in iteration order.  A [str] is kept as the sequence of its
    code points, each below 256: a character of a [string] is read as the
    code point of that number. *)

(** A float is its exact value [m * 2^e], an infinity or a NaN: equality
    with an integer is all this module ever asks of one. *)
Inductive pyfloat : Type :=
| FFinite (m e : Z)
| FInf (negative : bool)
| FNan.

Inductive value : Type :=
| VNone
| VBool (b : bool)
| VInt (n : Z)
| VFloat (f : pyfloat)
| VStr (s : string)
| VList (xs : list value)
| VDict (items : list (value * value)).

Definition dict : Type := list (value * value).

(** [v is None] and [v is not None]. *)
Definition is_none (v : value) : bool :=
  match v with VNone => true | _ => false end.

Definition is_not_none (v : value) : bool := negb (is_none v).

(** [bool(v)], the test of [if v:]. *)
Definition truthy (v : value) : bool :=
  match v with
  | VNone => false
  | VBool b => b
  | VInt n => negb (n =? 0)%Z
  | VFloat (FFinite m _) => negb (m =? 0)%Z
  | VFloat _ => true
  | VStr s => negb (s =? "")
  | VList xs => match xs with [] => false | _ => true end
  | VDict items => match items with [] => false | _ => true end
  end.

(** Numbers compare by value across [bool], [int] and [float]. *)
Definition as_number (v : value) : option pyfloat :=
  match v with
  | VBool b => Some (FFinite (if b then 1 else 0) 0)
  | VInt n => Some (FFinite n 0)
  | VFloat f => Some f
  | _ => None
  end.

Definition num_eqb (x y : pyfloat) : bool :=
  match x, y with
  | FFinite m1 e1, FFinite m2 e2 =>
      let e := Z.min e1 e2 in
      (m1 * 2 ^ (e1 - e) =? m2 * 2 ^ (e2 - e))%Z
  | FInf a, FInf b => Bool.eqb a b
  | _, _ => false
  end.

(** [a == b] where one side is a string or integer literal, which is the
    only way this module compares values (a tuple element or a stored key
    on the left); lists and mappings are then unequal to it, and are not
    compared with one another here. *)
Definition py_eq (a b : value) : bool :=
  match a, b with
  | VNone, VNone => true
  | VStr s, VStr t => String.eqb s t
  | _, _ =>
      match as_number a, as_number b with
      | Some x, Some y => num_eqb x y
      | _, _ => false
      end
  end.

(** Lists and mappings have no hash. *)
Definition hashable (v : value) : bool :=
  match v with
  | VList _ | VDict _ => false
  | _ => true
  end.

(** [v in (c1, ..., cn)] on a tuple of literals. *)
Definition py_in (v : value) (tuple : list value) : bool :=
  existsb (fun c => py_eq c v) tuple.

(** ** Mappings with string keys looked up by a literal *)

(** [d[k]]: [None] stands for KeyError. *)
Fixpoint dict_getitem (d : dict) (k : string) : option value :=
  match d with
  | [] => None
  | (k', v) :: rest => if py_eq k' (VStr k) then Some v else dict_getitem rest k
  end.

(** [d.get(k)] *)
Definition dict_get (d : dict) (k : string) : value :=
  match dict_getitem d k with
  | Some v => v
  | None => VNone
  end.

(** [d[k] = v]: an existing key keeps its place, a new one goes last. *)
Fixpoint dict_set (d : dict) (k : string) (v : value) : dict :=
  match d with
  | [] => [(VStr k, v)]
  | (k', v') :: rest =>
      if py_eq k' (VStr k) then (k', v) :: rest
      else (k', v') :: dict_set rest k v
  end.

(** ** Regular expressions

    The fragment of [re] syntax that [EXPIRATION_RE] is written in, matched
    by derivatives. *)

Inductive regex : Type :=
| Fail
| Eps
| Chars (p : ascii -> bool)
| Cat (r1 r2 : regex)
| Alt (r1 r2 : regex)
| Star (r : regex).

(** [r+] and [r?] *)
Definition Plus (r : regex) : regex := Cat r (Star r).
Definition Opt (r : regex) : regex := Alt r Eps.

Fixpoint nullable (r : regex) : bool :=
  match r with
  | Fail => false
  | Eps => true
  | Chars _ => false
  | Cat r1 r2 => nullable r1 && nullable r2
  | Alt r1 r2 => nullable r1 || nullable r2
  | Star _ => true
  end.

Fixpoint deriv (c : ascii) (r : regex) : regex :=
  match r with
  | Fail => Fail
  | Eps => Fail
  | Chars p => if p c then Eps else Fail
  | Cat r1 r2 =>
      if nullable r1 then Alt (Cat (deriv c r1) r2) (deriv c r2)
      else Cat (deriv c r1) r2
  | Alt r1 r2 => Alt (deriv c r1) (deriv c r2)
  | Star r1 => Cat (deriv c r1) (Star r1)
  end.

(** Does [r] match the whole of [s]? *)
Fixpoint fullmatch (r : regex) (s : list ascii) : bool :=
  match s with
  | [] => nullable r
  | c :: s' => fullmatch (deriv c r) s'
  end.

(** Character classes. *)
Definition in_range (lo hi : ascii) (c : ascii) : bool :=
  (Ascii.leb lo c && Ascii.leb c hi)%bool.

Definition in_set (cs : list ascii) (c : ascii) : bool :=
  existsb (Ascii.eqb c) cs.

(** [\s] of a [str] pattern compiled without [re.ASCII]: the code points
    that [str.isspace] holds for.  Below 128 these are 9 to 13 and 28 to
    32; of the others, those below 256 are 133 and 160. *)
Definition is_space (c : ascii) : bool :=
  let n := nat_of_ascii c in
  if Nat.ltb n 128
  then Nat.leb 9 n && Nat.leb n 13 || Nat.leb 28 n && Nat.leb n 32
  else Nat.eqb n 133 || Nat.eqb n 160.

Definition newline : ascii := "010"%char.

(** [re.compile('^' + body + '$').match(s)] as a truth value.  [match]
    anchors at the start, so [^] adds nothing; [$] holds at the end of the
    string and also just before a newline that ends it. *)
Definition re_match_anchored (body : regex) (s : string) : bool :=
  let cs := list_ascii_of_string s in
  fullmatch body cs
  || match rev cs with
     | c :: before => Ascii.eqb c newline && fullmatch body (rev before)
     | [] => false
     end.

(** [DELTA_REGEX = r'([0-9]+)([DdHhMm]|[sS]?)'] *)
Definition DELTA_REGEX : regex :=
  Cat (Plus (Chars (in_range "0" "9")))
      (Alt (Chars (in_set ["D"; "d"; "H"; "h"; "M"; "m"]%char))
           (Opt (Chars (in_set ["s"; "S"]%char)))).

(** [EXPIRATION_RE = r'^\s*({})(\s+{})*\s*$'.format(DELTA_REGEX, DELTA_REGEX)],
    without its two anchors, which [re_match_anchored] accounts for. *)
Definition EXPIRATION_RE : regex :=
  Cat (Star (Chars is_space))
      (Cat DELTA_REGEX
           (Cat (Star (Cat (Plus (Chars is_space)) DELTA_REGEX))
                (Star (Chars is_space)))).

(** ** Exceptions *)

(** The text of an [AppEngineConfigException], kept as the message
    template together with the values formatted into it. *)
Inductive message : Type :=
| MissingUrl (yaml_entry : dict)
    (* 'Missing url from handler: {}' *)
| UnrecognizedField (field : value)
    (* 'Unrecognized handler field: {}' *)
| InvalidValue (field : string) (v : value)
    (* 'Invalid {} value: {}' *)
| ScriptAndStatic
    (* 'Handler cannot contain both script and static elements' *)
| NoScriptNoStatic
    (* 'Handler must contain either script or static element' *)
| StaticDirAndStaticFiles.
    (* 'Handler cannot contain both static_dir and static_files' *)

Inductive exn : Type :=
| AppEngineConfigException (m : message)
| TypeError
| KeyError (k : value)
| AttributeError (name : string)
| NotModelled.
    (* not a Python exception: [py_format] below does not render the value *)

Definition result (A : Type) : Type := (exn + A)%type.

(** [d[k]] for any key: an unhashable key is a TypeError, a missing one a
    KeyError. *)
Definition getitem (d : dict) (k : value) : result value :=
  if hashable k then
    match find (fun item => py_eq (fst item) k) d with
    | Some item => inr (snd item)
    | None => inl (KeyError k)
    end
  else inl TypeError.

(** [container[k]] on a value. *)
Definition subscript (container : value) (k : value) : result value :=
  match container with
  | VDict d => getitem d k
  | _ => inl TypeError
  end.

(** ['{}'.format(v)].  Strings, [None], booleans and integers are rendered.
    The [repr] of floats, lists and mappings is not modelled: where the
    code would format one, the embedding stops with [NotModelled] and says
    nothing.  [to_api_dict] formats [static_dir] only, which on a Handler
    from [from_yaml] is a string or [None]. *)
Definition py_format (v : value) : result string :=
  match v with
  | VStr s => inr s
  | VNone => inr "None"
  | VBool b => inr (if b then "True" else "False")
  | VInt n => inr (NilEmpty.string_of_int (Z.to_int n))
  | VFloat _ | VList _ | VDict _ => inl NotModelled
  end.

(** ** The Handler object *)

Record Handler : Type := mkHandler {
  url : value;
  application_readable : value;
  auth_fail_action : value;
  expiration : value;
  http_headers : value;
  login : value;
  mime_type : value;
  redirect_http_response_code : value;
  script : value;
  secure : value;
  static_dir : value;
  static_files : value;
  upload : value
}.

(** [Handler.__init__(self, url)] *)
Definition Handler_init (url : value) : Handler :=
  {| url := url;
     application_readable := VNone;
     auth_fail_action := VNone;
     expiration := VNone;
     http_headers := VNone;
     login := VNone;
     mime_type := VNone;
     redirect_http_response_code := VNone;
     script := VNone;
     secure := VNone;
     static_dir := VNone;
     static_files := VNone;
     upload := VNone |}.

(** The attribute called [name], if the object has one. *)
Definition attr (h : Handler) (name : string) : option value :=
  if name =? "url" then Some (url h)
  else if name =? "application_readable" then Some (application_readable h)
  else if name =? "auth_fail_action" then Some (auth_fail_action h)
  else if name =? "expiration" then Some (expiration h)
  else if name =? "http_headers" then Some (http_headers h)
  else if name =? "login" then Some (login h)
  else if name =? "mime_type" then Some (mime_type h)
  else if name =? "redirect_http_response_code"
       then Some (redirect_http_response_code h)
  else if name =? "script" then Some (script h)
  else if name =? "secure" then Some (secure h)
  else if name =? "static_dir" then Some (static_dir h)
  else if name =? "static_files" then Some (static_files h)
  else if name =? "upload" then Some (upload h)
  else None.

(** The object after [setattr(h, name, v)].  Only the thirteen attributes
    that [__init__] creates are represented; [from_yaml] assigns no other
    (see [FIELD_RULES_attributes]). *)
Definition set_attr (h : Handler) (name : string) (v : value) : Handler :=
  let (u, ar, afa, e, hh, l, mt, r, sc, se, sd, sf, up) := h in
  if name =? "url" then mkHandler v ar afa e hh l mt r sc se sd sf up
  else if name =? "application_readable"
       then mkHandler u v afa e hh l mt r sc se sd sf up
  else if name =? "auth_fail_action"
       then mkHandler u ar v e hh l mt r sc se sd sf up
  else if name =? "expiration" then mkHandler u ar afa v hh l mt r sc se sd sf up
  else if name =? "http_headers" then mkHandler u ar afa e v l mt r sc se sd sf up
  else if name =? "login" then mkHandler u ar afa e hh v mt r sc se sd sf up
  else if name =? "mime_type" then mkHandler u ar afa e hh l v r sc se sd sf up
  else if name =? "redirect_http_response_code"
       then mkHandler u ar afa e hh l mt v sc se sd sf up
  else if name =? "script" then mkHandler u ar afa e hh l mt r v se sd sf up
  else if name =? "secure" then mkHandler u ar afa e hh l mt r sc v sd sf up
  else if name =? "static_dir" then mkHandler u ar afa e hh l mt r sc se v sf up
  else if name =? "static_files" then mkHandler u ar afa e hh l mt r sc se sd v up
  else if name =? "upload" then mkHandler u ar afa e hh l mt r sc se sd sf v
  else h.

(** The [static_defined] property. *)
Definition static_defined (h : Handler) : bool :=
  is_not_none (static_dir h) || is_not_none (static_files h).

(** ** Code that runs on a Handler

    A computation reads and writes the object it runs on, and either
    returns a value with the object as it then is, or raises. *)

Definition M (A : Type) : Type := Handler -> result (A * Handler).

Definition ret {A : Type} (x : A) : M A := fun h => inr (x, h).

Definition bind {A B : Type} (c : M A) (k : A -> M B) : M B :=
  fun h =>
    match c h with
    | inl e => inl e
    | inr (x, h') => k x h'
    end.

Definition raise {A : Type} (e : exn) : M A := fun _ => inl e.

Definition lift {A : Type} (r : result A) : M A :=
  fun h =>
    match r with
    | inl e => inl e
    | inr x => inr (x, h)
    end.

(** The object itself, for [self.name]. *)
Definition self : M Handler := fun h => inr (h, h).

Definition getattr (name : string) : M value :=
  fun h =>
    match attr h name with
    | Some v => inr (v, h)
    | None => inl (AttributeError name)
    end.

Definition setattr (name : string) (v : value) : M unit :=
  fun h => inr (tt, set_attr h name v).

Declare Scope py_scope.
Delimit Scope py_scope with py.
Notation "x <- c ;; k" := (bind c (fun x => k))
  (at level 100, c at next level, right associativity) : py_scope.
Notation "c ;; k" := (bind c (fun _ => k))
  (at level 100, right associativity) : py_scope.
Local Open Scope py_scope.

(** [if test: raise e] *)
Definition raise_if (test : bool) (e : exn) : M unit :=
  if test then raise e else ret tt.

(** [for x in xs: body(x)] *)
Fixpoint for_each {A : Type} (xs : list A) (body : A -> M unit) : M unit :=
  match xs with
  | [] => ret tt
  | x :: rest => body x ;; for_each rest body
  end.

(** A loop that updates a local variable [acc]. *)
Fixpoint for_fold {A B : Type} (xs : list A) (acc : B)
    (body : B -> A -> M B) : M B :=
  match xs with
  | [] => ret acc
  | x :: rest => acc' <- body acc x ;; for_fold rest acc' body
  end.

(** ** The class tables, in source order *)

Definition API_FIELDS : list (string * string) :=
  [ ("secure", "securityLevel");
    ("login", "login");
    ("auth_fail_action", "authFailAction");
    ("redirect_http_response_code", "redirectHttpResponseCode") ].

Definition API_VALUES : dict :=
  [ (VStr "securityLevel",
      VDict [ (VStr "optional", VStr "SECURE_OPTIONAL");
              (VStr "never", VStr "SECURE_NEVER");
              (VStr "always", VStr "SECURE_ALWAYS") ]);
    (VStr "login",
      VDict [ (VStr "optional", VStr "LOGIN_OPTIONAL");
              (VStr "required", VStr "LOGIN_REQUIRED");
              (VStr "admin", VStr "LOGIN_ADMIN") ]);
    (VStr "authFailAction",
      VDict [ (VStr "redirect", VStr "AUTH_FAIL_ACTION_REDIRECT");
              (VStr "unauthorized", VStr "AUTH_FAIL_ACTION_UNAUTHORIZED") ]);
    (VStr "redirectHttpResponseCode",
      VDict [ (VInt 301, VStr "REDIRECT_HTTP_RESPONSE_CODE_301");
              (VInt 302, VStr "REDIRECT_HTTP_RESPONSE_CODE_302");
              (VInt 303, VStr "REDIRECT_HTTP_RESPONSE_CODE_303");
              (VInt 307, VStr "REDIRECT_HTTP_RESPONSE_CODE_307") ]) ].

(** [isinstance(val, bool)], [isinstance(val, str)], [isinstance(val, dict)] *)
Definition is_bool (v : value) : bool :=
  match v with VBool _ => true | _ => false end.
Definition is_str (v : value) : bool :=
  match v with VStr _ => true | _ => false end.
Definition is_dict (v : value) : bool :=
  match v with VDict _ => true | _ => false end.

(** [re.compile(EXPIRATION_RE).match]: a TypeError on anything but a
    string; a match object is true, [None] is false. *)
Definition expiration_match (v : value) : result bool :=
  match v with
  | VStr s => inr (re_match_anchored EXPIRATION_RE s)
  | _ => inl TypeError
  end.

Definition FIELD_RULES : list (string * (value -> result bool)) :=
  [ ("application_readable", fun val => inr (is_bool val));
    ("auth_fail_action",
      fun val => inr (py_in val [VStr "redirect"; VStr "unauthorized"]));
    ("expiration", expiration_match);
    ("http_headers", fun val => inr (is_dict val));
    ("login",
      fun val => inr (py_in val [VStr "optional"; VStr "required"; VStr "admin"]));
    ("mime_type", fun val => inr (is_str val));
    ("redirect_http_response_code",
      fun val => inr (py_in val [VInt 301; VInt 302; VInt 303; VInt 307]));
    ("script", fun val => inr (is_str val));
    ("secure",
      fun val => inr (py_in val [VStr "optional"; VStr "never"; VStr "always"]));
    ("static_dir", fun val => inr (is_str val));
    ("static_files", fun val => inr (is_str val));
    ("upload", fun val => inr (is_str val));
    ("url", fun val => inr (is_str val)) ].

Definition STATIC_API_FIELDS : list (string * string) :=
  [ ("upload", "uploadPathRegex");
    ("http_headers", "httpHeaders");
    ("mime_type", "mimeType");
    ("expiration", "expiration");
    ("application_readable", "applicationReadable") ].

(** [field in cls.FIELD_RULES] *)
Definition in_FIELD_RULES (field : value) : bool :=
  existsb (fun entry => py_eq (VStr (fst entry)) field) FIELD_RULES.

(** ** Handler.from_yaml *)

(** The body of [for field, rule in cls.FIELD_RULES.items()]. *)
Definition apply_rule (yaml_entry : dict)
    (entry : string * (value -> result bool)) : M unit :=
  let (field, rule) := entry in
  let value := dict_get yaml_entry field in
  if is_not_none value then
    ok <- lift (rule value) ;;
    raise_if (negb ok)
      (AppEngineConfigException (InvalidValue field value)) ;;
    setattr field value
  else ret tt.

(** What [from_yaml] does to the object it has just created. *)
Definition populate (yaml_entry : dict) : M unit :=
  for_each (map fst yaml_entry) (fun field =>
    raise_if (negb (in_FIELD_RULES field))
      (AppEngineConfigException (UnrecognizedField field))) ;;
  for_each FIELD_RULES (apply_rule yaml_entry) ;;
  handler <- self ;;
  raise_if (is_not_none (script handler) && static_defined handler)
    (AppEngineConfigException ScriptAndStatic) ;;
  raise_if (is_none (script handler) && negb (static_defined handler))
    (AppEngineConfigException NoScriptNoStatic) ;;
  (if static_defined handler then
     raise_if (is_not_none (static_dir handler)
               && is_not_none (static_files handler))
       (AppEngineConfigException StaticDirAndStaticFiles)
   else ret tt).

Definition from_yaml (yaml_entry : dict) : result Handler :=
  match dict_getitem yaml_entry "url" with
  | None => inl (AppEngineConfigException (MissingUrl yaml_entry))
  | Some url =>
      match populate yaml_entry (Handler_init url) with
      | inl e => inl e
      | inr (_, handler) => inr handler
      end
  end.

(** ** Handler.to_api_dict *)

Definition to_api_dict : M dict :=
  this <- self ;;
  let handler := [(VStr "urlRegex", url this)] in
  handler <- for_fold API_FIELDS handler (fun handler entry =>
    let (attr, api_field) := entry in
    value <- getattr attr ;;
    if is_not_none value then
      table <- lift (getitem API_VALUES (VStr api_field)) ;;
      constant <- lift (subscript table value) ;;
      ret (dict_set handler api_field constant)
    else ret handler) ;;
  this <- self ;;
  if static_defined this then
    static_section <-
      (if truthy (static_dir this) then
         formatted <- lift (py_format (static_dir this)) ;;
         ret [ (VStr "path", static_dir this);
               (VStr "uploadPathRegex", VStr (formatted ++ "/.*")%string) ]
       else ret [ (VStr "path", static_files this) ]) ;;
    static_section <- for_fold STATIC_API_FIELDS static_section
      (fun static_section entry =>
        let (attr, api_field) := entry in
        value <- getattr attr ;;
        if is_not_none value then ret (dict_set static_section api_field value)
        else ret static_section) ;;
    ret (dict_set handler "staticFiles" (VDict static_section))
  else
    ret (dict_set handler "script" (VDict [ (VStr "scriptPath", script this) ])).

(** * The specification, in the terms of the embedding *)

(** ** The language of a regular expression *)

(** The language of a regular expression. *)
Inductive matches : regex -> list ascii -> Prop :=
| MEps : matches Eps []
| MChars p c : p c = true -> matches (Chars p) [c]
| MCat r1 r2 s1 s2 :
    matches r1 s1 -> matches r2 s2 -> matches (Cat r1 r2) (s1 ++ s2)
| MAltL r1 r2 s : matches r1 s -> matches (Alt r1 r2) s
| MAltR r1 r2 s : matches r2 s -> matches (Alt r1 r2) s
| MStarNil r : matches (Star r) []
| MStarApp r s1 s2 :
    matches r s1 -> matches (Star r) s2 -> matches (Star r) (s1 ++ s2).

(** ** The expiration grammar *)

(** The grammar as the specification words it: one or more delta terms
    separated by whitespace, each a run of digits followed by a unit among
    d, D, h, H, m, M, s, S or by nothing, with whitespace allowed before
    the first term and after the last. *)

Definition digits : list ascii :=
  ["0"; "1"; "2"; "3"; "4"; "5"; "6"; "7"; "8"; "9"]%char.

Definition units : list ascii :=
  ["d"; "D"; "h"; "H"; "m"; "M"; "s"; "S"]%char.

(** Whitespace, character by character: tab, line feed, vertical tab, form
    feed, carriage return, the file, group, record and unit separators,
    space, next line and no-break space. *)
Definition whitespace_chars : list ascii :=
  [ "009"; "010"; "011"; "012"; "013"; "028"; "029"; "030"; "031"; " ";
    "133"; "160" ]%char.

Definition whitespace (w : list ascii) : Prop :=
  Forall (fun c => In c whitespace_chars) w.

Definition delta_term (t : list ascii) : Prop :=
  exists ds u,
    t = ds ++ u /\ ds <> [] /\ Forall (fun c => In c digits) ds /\
    (u = [] \/ exists c, In c units /\ u = [c]).

Inductive delta_terms : list ascii -> Prop :=
| terms_last t : delta_term t -> delta_terms t
| terms_more t w rest :
    delta_term t -> w <> [] -> whitespace w -> delta_terms rest ->
    delta_terms (t ++ w ++ rest).

Definition expiration_words (cs : list ascii) : Prop :=
  exists lead body trail,
    cs = lead ++ body ++ trail /\
    whitespace lead /\ delta_terms body /\ whitespace trail.

Definition expiration_grammar (s : string) : Prop :=
  expiration_words (list_ascii_of_string s).

(** ** The validation table *)

(** The recognized fields: [url] and the twelve others. *)
Definition recognized_fields : list string :=
  [ "url"; "application_readable"; "auth_fail_action"; "expiration";
    "http_headers"; "login"; "mime_type"; "redirect_http_response_code";
    "script"; "secure"; "static_dir"; "static_files"; "upload" ].

(** A mapping from strings to strings. *)
Definition string_to_string_mapping (v : value) : Prop :=
  exists items,
    v = VDict items /\
    Forall (fun item => is_str (fst item) = true /\ is_str (snd item) = true)
           items.

(** The predicate of each field as the code applies it: the table of the
    specification, except that [http_headers] only has to be a mapping.
    Membership in a set of numbers is by numeric value. *)
Definition field_predicate (field : string) (v : value) : Prop :=
  if field =? "application_readable" then exists b, v = VBool b
  else if field =? "auth_fail_action"
       then In v [VStr "redirect"; VStr "unauthorized"]
  else if field =? "expiration"
       then exists s, v = VStr s /\ expiration_grammar s
  else if field =? "http_headers" then exists items, v = VDict items
  else if field =? "login"
       then In v [VStr "optional"; VStr "required"; VStr "admin"]
  else if field =? "mime_type" then exists s, v = VStr s
  else if field =? "redirect_http_response_code"
       then exists n, In n [301; 302; 303; 307]%Z /\ py_eq (VInt n) v = true
  else if field =? "script" then exists s, v = VStr s
  else if field =? "secure"
       then In v [VStr "optional"; VStr "never"; VStr "always"]
  else if field =? "static_dir" then exists s, v = VStr s
  else if field =? "static_files" then exists s, v = VStr s
  else if field =? "upload" then exists s, v = VStr s
  else if field =? "url" then exists s, v = VStr s
  else False.

(** ** The translation table and the secondary static fields *)

(** The four fields that map directly to an output key. *)
Definition directly_mapped_fields : list (string * string) :=
  [ ("secure", "securityLevel");
    ("login", "login");
    ("auth_fail_action", "authFailAction");
    ("redirect_http_response_code", "redirectHttpResponseCode") ].

(** The constant of each enum literal, by source field. *)
Definition enum_translation (field : string) : list (value * string) :=
  if field =? "secure"
  then [ (VStr "optional", "SECURE_OPTIONAL"); (VStr "never", "SECURE_NEVER");
         (VStr "always", "SECURE_ALWAYS") ]
  else if field =? "login"
  then [ (VStr "optional", "LOGIN_OPTIONAL"); (VStr "required", "LOGIN_REQUIRED");
         (VStr "admin", "LOGIN_ADMIN") ]
  else if field =? "auth_fail_action"
  then [ (VStr "redirect", "AUTH_FAIL_ACTION_REDIRECT");
         (VStr "unauthorized", "AUTH_FAIL_ACTION_UNAUTHORIZED") ]
  else if field =? "redirect_http_response_code"
  then [ (VInt 301, "REDIRECT_HTTP_RESPONSE_CODE_301");
         (VInt 302, "REDIRECT_HTTP_RESPONSE_CODE_302");
         (VInt 303, "REDIRECT_HTTP_RESPONSE_CODE_303");
         (VInt 307, "REDIRECT_HTTP_RESPONSE_CODE_307") ]
  else [].

(** The constant that the table gives for a value of a field. *)
Definition enum_constant (field : string) (v : value) : option string :=
  match find (fun entry => py_eq (fst entry) v) (enum_translation field) with
  | Some entry => Some (snd entry)
  | None => None
  end.

(** The five secondary static fields and their output keys. *)
Definition secondary_static_fields : list (string * string) :=
  [ ("upload", "uploadPathRegex");
    ("http_headers", "httpHeaders");
    ("mime_type", "mimeType");
    ("expiration", "expiration");
    ("application_readable", "applicationReadable") ].

(** ** Recognized keys, set fields and output keys *)

(** A key of the entry that names a recognized field. *)
Definition recognized (key : value) : Prop :=
  exists name, In name recognized_fields /\ key = VStr name.

(** A field of the entry is fine when it is null or absent, or satisfies
    its predicate. *)
Definition field_ok (yaml_entry : dict) (name : string) : Prop :=
  dict_get yaml_entry name = VNone \/
  field_predicate name (dict_get yaml_entry name).

(** The field is present in the entry with a non-null value. *)
Definition is_set (yaml_entry : dict) (name : string) : bool :=
  is_not_none (dict_get yaml_entry name).

(** The keys that the output mapping can have. *)
Definition output_keys : list string :=
  [ "urlRegex"; "securityLevel"; "login"; "authFailAction";
    "redirectHttpResponseCode"; "staticFiles"; "script" ].

(** What the static section holds under each key, read off the object:
    the path is [static_dir] when that is true and [static_files]
    otherwise; the upload pattern is [upload] when set, else the pattern
    generated from a true [static_dir]; every other key is there when its
    attribute is set. *)
Definition set_or_absent (v : value) : option value :=
  if is_not_none v then Some v else None.

Definition static_lookup (h : Handler) (key : string) : option value :=
  if key =? "path"
  then Some (if truthy (static_dir h) then static_dir h else static_files h)
  else if key =? "uploadPathRegex"
  then if is_not_none (upload h) then Some (upload h)
       else if truthy (static_dir h)
       then match static_dir h with
            | VStr s => Some (VStr (s ++ "/.*")%string)
            | _ => None
            end
       else None
  else if key =? "httpHeaders" then set_or_absent (http_headers h)
  else if key =? "mimeType" then set_or_absent (mime_type h)
  else if key =? "expiration" then set_or_absent (expiration h)
  else if key =? "applicationReadable"
  then set_or_absent (application_readable h)
  else None.

(** The keys of a mapping are distinct strings among [keys], and its first
    item is [first]. *)
Definition shaped (keys : list string) (first : value * value) (d : dict)
    : Prop :=
  NoDup (map fst d) /\
  (forall key, In key (map fst d) -> exists k, key = VStr k /\ In k keys) /\
  hd_error d = Some first.

(** What a run returned, without the object. *)
Definition returned {A : Type} (r : result (A * Handler)) : result A :=
  match r with
  | inl e => inl e
  | inr (x, _) => inr x
  end.

(** * The two functions, step by step *)

(** ** from_yaml *)

(** A rule lets the entry through: the value is [None], or the rule
    returns a true result. *)
Definition passes (yaml_entry : dict)
    (entry : string * (value -> result bool)) : Prop :=
  is_none (dict_get yaml_entry (fst entry)) = true \/
  snd entry (dict_get yaml_entry (fst entry)) = inr true.

(** What one passing round of the loop leaves in the object. *)
Definition store (yaml_entry : dict) (h : Handler) (entry : string * (value -> result bool))
    : Handler :=
  let value := dict_get yaml_entry (fst entry) in
  if is_not_none value then set_attr h (fst entry) value else h.

(** The Handler that holds the entry's value for every attribute. *)
Definition handler_of (yaml_entry : dict) : Handler :=
  {| url := dict_get yaml_entry "url";
     application_readable := dict_get yaml_entry "application_readable";
     auth_fail_action := dict_get yaml_entry "auth_fail_action";
     expiration := dict_get yaml_entry "expiration";
     http_headers := dict_get yaml_entry "http_headers";
     login := dict_get yaml_entry "login";
     mime_type := dict_get yaml_entry "mime_type";
     redirect_http_response_code :=
       dict_get yaml_entry "redirect_http_response_code";
     script := dict_get yaml_entry "script";
     secure := dict_get yaml_entry "secure";
     static_dir := dict_get yaml_entry "static_dir";
     static_files := dict_get yaml_entry "static_files";
     upload := dict_get yaml_entry "upload" |}.

(** The first key of the entry that is not a key of FIELD_RULES. *)
Definition unrecognized (yaml_entry : dict) : option value :=
  find (fun field => negb (in_FIELD_RULES field)) (map fst yaml_entry).

(** The message of the first cross-field check that fails. *)
Definition cross_field_error (handler : Handler) : option message :=
  if is_not_none (script handler) && static_defined handler
  then Some ScriptAndStatic
  else if is_none (script handler) && negb (static_defined handler)
  then Some NoScriptNoStatic
  else if static_defined handler
          && (is_not_none (static_dir handler)
              && is_not_none (static_files handler))
  then Some StaticDirAndStaticFiles
  else None.

(** ** to_api_dict *)

(** [self.API_VALUES[api_field][value]] *)
Definition translate (api_field : string) (v : value) : result value :=
  match getitem API_VALUES (VStr api_field) with
  | inl e => inl e
  | inr table => subscript table v
  end.

(** A loop whose body only reads the object is a fold over plain results. *)
Fixpoint fold_result {A B : Type} (f : B -> A -> result B) (xs : list A)
    (acc : B) : result B :=
  match xs with
  | [] => inr acc
  | x :: rest =>
      match f acc x with
      | inl e => inl e
      | inr acc' => fold_result f rest acc'
      end
  end.

(** One round of the loop over API_FIELDS. *)
Definition direct_step (h : Handler) (handler : dict)
    (entry : string * string) : result dict :=
  let (name, api_field) := entry in
  match attr h name with
  | None => inl (AttributeError name)
  | Some v =>
      if is_not_none v then
        match translate api_field v with
        | inl e => inl e
        | inr constant => inr (dict_set handler api_field constant)
        end
      else inr handler
  end.

(** One round of the loop over STATIC_API_FIELDS. *)
Definition static_step (h : Handler) (static_section : dict)
    (entry : string * string) : result dict :=
  let (name, api_field) := entry in
  match attr h name with
  | None => inl (AttributeError name)
  | Some v =>
      inr (if is_not_none v then dict_set static_section api_field v
           else static_section)
  end.

(** The static section before the loop over STATIC_API_FIELDS. *)
Definition static_base (h : Handler) : result dict :=
  if truthy (static_dir h) then
    match py_format (static_dir h) with
    | inl e => inl e
    | inr formatted =>
        inr [ (VStr "path", static_dir h);
              (VStr "uploadPathRegex", VStr (formatted ++ "/.*")%string) ]
    end
  else inr [ (VStr "path", static_files h) ].

Definition static_section (h : Handler) : result dict :=
  match static_base h with
  | inl e => inl e
  | inr base => fold_result (static_step h) STATIC_API_FIELDS base
  end.

(** The mapping that [to_api_dict] returns, as a function of the object. *)
Definition api_dict (h : Handler) : result dict :=
  match fold_result (direct_step h) API_FIELDS [(VStr "urlRegex", url h)] with
  | inl e => inl e
  | inr handler =>
      if static_defined h then
        match static_section h with
        | inl e => inl e
        | inr section => inr (dict_set handler "staticFiles" (VDict section))
        end
      else
        inr (dict_set handler "script"
               (VDict [ (VStr "scriptPath", script h) ]))
  end.

(** The static section after the loop over STATIC_API_FIELDS. *)
Definition apply_secondary (h : Handler) (base : dict) : dict :=
  fold_left
    (fun section entry =>
       match attr h (fst entry) with
       | Some v => if is_not_none v then dict_set section (snd entry) v
                   else section
       | None => section
       end)
    STATIC_API_FIELDS base.

(** * Regular expressions: the matcher decides the language *)

Create HintDb regex.
#[local] Hint Constructors matches : regex.

Section RegexInversion.
Variables r1 r2 : regex.

Lemma matches_Cat_inv s :
  matches (Cat r1 r2) s ->
  exists s1 s2, s = s1 ++ s2 /\ matches r1 s1 /\ matches r2 s2.
Proof. inversion 1; subst; eauto. Qed.

Lemma matches_Alt_inv s :
  matches (Alt r1 r2) s -> matches r1 s \/ matches r2 s.
Proof. inversion 1; subst; auto. Qed.
End RegexInversion.

Lemma matches_Chars_inv p s :
  matches (Chars p) s -> exists c, s = [c] /\ p c = true.
Proof. inversion 1; subst; eauto. Qed.

Lemma matches_Eps_inv s : matches Eps s -> s = [].
Proof. inversion 1; reflexivity. Qed.

Lemma nullable_matches r : nullable r = true <-> matches r [].
Proof.
  split.
  - induction r; simpl; intros H; try discriminate; auto with regex.
    + apply andb_true_iff in H as [H1 H2].
      change (@nil ascii) with (@nil ascii ++ []). auto with regex.
    + apply orb_true_iff in H as [H | H]; auto with regex.
  - intros H. remember [] as s eqn:Es.
    induction H; simpl; auto; try discriminate.
    + apply app_eq_nil in Es as [-> ->].
      rewrite IHmatches1, IHmatches2; auto.
    + rewrite IHmatches; auto.
    + rewrite IHmatches; auto using orb_true_r.
Qed.

(** A non-empty word of [Star r] starts with a non-empty word of [r]. *)
Lemma matches_Star_cons r c s :
  matches (Star r) (c :: s) ->
  exists s1 s2, s = s1 ++ s2 /\ matches r (c :: s1) /\ matches (Star r) s2.
Proof.
  intros H. remember (Star r) as r' eqn:Er. remember (c :: s) as w eqn:Ew.
  induction H; try discriminate.
  injection Er as ->.
  destruct s1 as [| c1 s1]; simpl in Ew.
  - auto.
  - injection Ew as -> <-. eauto.
Qed.

Lemma deriv_matches c r : forall s, matches (deriv c r) s <-> matches r (c :: s).
Proof.
  induction r; intros s; simpl.
  - split; inversion 1.
  - split; inversion 1.
  - destruct (p c) eqn:Hp; split; intros H.
    + apply matches_Eps_inv in H as ->. auto with regex.
    + inversion H; subst. constructor.
    + inversion H.
    + inversion H; subst. congruence.
  - assert (Hleft : forall s1 s2, matches (deriv c r1) s1 -> matches r2 s2 ->
                                  matches (Cat r1 r2) (c :: s1 ++ s2)).
    { intros s1 s2 H1 H2. apply IHr1 in H1.
      change (c :: s1 ++ s2) with ((c :: s1) ++ s2). auto with regex. }
    split.
    + destruct (nullable r1) eqn:Hn; intros H.
      * apply matches_Alt_inv in H as [H | H].
        -- apply matches_Cat_inv in H as (s1 & s2 & -> & H1 & H2). auto.
        -- apply IHr2 in H. apply nullable_matches in Hn.
           change (c :: s) with ([] ++ c :: s). auto with regex.
      * apply matches_Cat_inv in H as (s1 & s2 & -> & H1 & H2). auto.
    + intros H. apply matches_Cat_inv in H as (s1 & s2 & Es & H1 & H2).
      destruct s1 as [| c1 s1]; simpl in Es.
      * subst s2. apply nullable_matches in H1. rewrite H1.
        apply MAltR, IHr2, H2.
      * injection Es as <- ->. apply IHr1 in H1.
        destruct (nullable r1); auto with regex.
  - split; intros H.
    + apply matches_Alt_inv in H as [H | H];
        [apply IHr1 in H | apply IHr2 in H]; auto with regex.
    + apply matches_Alt_inv in H as [H | H];
        [apply IHr1 in H | apply IHr2 in H]; auto with regex.
  - split; intros H.
    + apply matches_Cat_inv in H as (s1 & s2 & -> & H1 & H2).
      apply IHr in H1.
      change (c :: s1 ++ s2) with ((c :: s1) ++ s2). auto with regex.
    + apply matches_Star_cons in H as (s1 & s2 & -> & H1 & H2).
      apply IHr in H1. auto with regex.
Qed.

Lemma fullmatch_matches s : forall r, fullmatch r s = true <-> matches r s.
Proof.
  induction s as [| c s IH]; intros r; simpl.
  - apply nullable_matches.
  - rewrite IH. apply deriv_matches.
Qed.

(** * The pattern and the grammar *)

(** Character classes against the listed characters. *)
Lemma in_range_digits c : in_range "0" "9" c = true <-> In c digits.
Proof.
  split.
  - destruct c as [[] [] [] [] [] [] [] []]; vm_compute; intros H;
      try discriminate; intuition.
  - intros H. repeat (destruct H as [<- | H]; [reflexivity |]). destruct H.
Qed.

(** The whitespace class of the pattern is the listed whitespace. *)
Lemma is_space_whitespace c : is_space c = true <-> In c whitespace_chars.
Proof.
  split.
  - destruct c as [[] [] [] [] [] [] [] []]; vm_compute; intros H;
      try discriminate; intuition.
  - intros H. repeat (destruct H as [<- | H]; [reflexivity |]). destruct H.
Qed.

Lemma in_set_In cs c : in_set cs c = true <-> In c cs.
Proof.
  unfold in_set. rewrite existsb_exists. split.
  - intros (x & Hx & E). apply Ascii.eqb_eq in E. now subst.
  - intros H. exists c. split; [assumption | apply Ascii.eqb_refl].
Qed.

Section Repetition.
Variable p : ascii -> bool.

Lemma matches_Star_Chars s :
  matches (Star (Chars p)) s <-> Forall (fun c => p c = true) s.
Proof.
  split.
  - intros H. remember (Star (Chars p)) as r eqn:Er.
    induction H; try discriminate; [constructor |].
    injection Er as ->. apply Forall_app. split; [| auto].
    apply matches_Chars_inv in H as (c & -> & Hc). auto.
  - induction 1 as [| c s Hc _ IH]; [constructor |].
    change (c :: s) with ([c] ++ s). auto with regex.
Qed.

Lemma matches_Plus_Chars s :
  matches (Plus (Chars p)) s <-> s <> [] /\ Forall (fun c => p c = true) s.
Proof.
  unfold Plus. split.
  - intros H. apply matches_Cat_inv in H as (s1 & s2 & -> & H1 & H2).
    apply matches_Chars_inv in H1 as (c & -> & Hc).
    apply matches_Star_Chars in H2.
    split; [discriminate | constructor; assumption].
  - intros [Hne H]. destruct s as [| c s]; [contradiction |].
    inversion H; subst.
    change (c :: s) with ([c] ++ s).
    constructor; [auto with regex | now apply matches_Star_Chars].
Qed.
End Repetition.

Lemma matches_spaces s :
  matches (Star (Chars is_space)) s <-> whitespace s.
Proof.
  rewrite matches_Star_Chars. unfold whitespace.
  split; apply Forall_impl; intros c; apply is_space_whitespace.
Qed.

Lemma matches_spaces_plus s :
  matches (Plus (Chars is_space)) s <-> s <> [] /\ whitespace s.
Proof.
  rewrite matches_Plus_Chars. unfold whitespace.
  split; intros [Hne H]; (split; [exact Hne |]); revert H;
    apply Forall_impl; intros c; apply is_space_whitespace.
Qed.

Lemma matches_DELTA_REGEX t : matches DELTA_REGEX t <-> delta_term t.
Proof.
  unfold DELTA_REGEX, delta_term, Opt. split.
  - intros H. apply matches_Cat_inv in H as (ds & u & -> & Hd & Hu).
    apply matches_Plus_Chars in Hd as [Hne Hd].
    exists ds, u. repeat split; auto.
    + eapply Forall_impl; [| exact Hd]. intros c. apply in_range_digits.
    + apply matches_Alt_inv in Hu as [Hu | Hu];
        [| apply matches_Alt_inv in Hu as [Hu | Hu]].
      * apply matches_Chars_inv in Hu as (c & -> & Hc). right. exists c.
        split; [| reflexivity]. apply in_set_In in Hc. simpl in *. intuition.
      * apply matches_Chars_inv in Hu as (c & -> & Hc). right. exists c.
        split; [| reflexivity]. apply in_set_In in Hc. simpl in *. intuition.
      * apply matches_Eps_inv in Hu. auto.
  - intros (ds & u & -> & Hne & Hd & Hu). constructor.
    + apply matches_Plus_Chars. split; [assumption |].
      eapply Forall_impl; [| exact Hd]. intros c. apply in_range_digits.
    + destruct Hu as [-> | (c & Hc & ->)]; [auto with regex |].
      simpl in Hc.
      destruct Hc as [<- | [<- | [<- | [<- | [<- | [<- | [<- | [<- | []]]]]]]]];
        (apply MAltL; constructor; reflexivity)
        || (apply MAltR, MAltL; constructor; reflexivity).
Qed.

(** [DELTA(\s+DELTA)*] is a non-empty sequence of terms. *)
Lemma matches_terms body :
  matches (Cat DELTA_REGEX (Star (Cat (Plus (Chars is_space)) DELTA_REGEX))) body
  <-> delta_terms body.
Proof.
  split.
  - intros H. apply matches_Cat_inv in H as (t & more & -> & Ht & Hmore).
    revert t Ht.
    remember (Star (Cat (Plus (Chars is_space)) DELTA_REGEX)) as r eqn:Er.
    induction Hmore; try discriminate; intros t Ht.
    + rewrite app_nil_r. apply terms_last, matches_DELTA_REGEX, Ht.
    + injection Er as ->.
      apply matches_Cat_inv in Hmore1 as (w & t' & -> & Hw & Ht').
      apply matches_spaces_plus in Hw as [Hne Hw].
      rewrite <- app_assoc.
      apply terms_more.
      * now apply matches_DELTA_REGEX.
      * assumption.
      * exact Hw.
      * apply IHHmore2; [reflexivity | assumption].
  - induction 1 as [t Ht | t w rest Ht Hne Hw _ IH].
    + rewrite <- (app_nil_r t).
      constructor; [now apply matches_DELTA_REGEX | constructor].
    + apply matches_Cat_inv in IH as (t' & more & -> & Ht' & Hmore).
      constructor; [now apply matches_DELTA_REGEX |].
      rewrite app_assoc.
      constructor; [| assumption].
      constructor; [| assumption].
      apply matches_spaces_plus. auto.
Qed.

Lemma matches_EXPIRATION_RE cs : matches EXPIRATION_RE cs <-> expiration_words cs.
Proof.
  unfold EXPIRATION_RE, expiration_words. split.
  - intros H.
    apply matches_Cat_inv in H as (lead & rest & -> & Hlead & H).
    apply matches_Cat_inv in H as (t & rest' & -> & Ht & H).
    apply matches_Cat_inv in H as (more & trail & -> & Hmore & Htrail).
    exists lead, (t ++ more), trail. repeat split.
    + now rewrite <- app_assoc.
    + now apply matches_spaces.
    + apply matches_terms. now constructor.
    + now apply matches_spaces.
  - intros (lead & body & trail & -> & Hlead & Hbody & Htrail).
    apply matches_terms in Hbody.
    apply matches_Cat_inv in Hbody as (t & more & -> & Ht & Hmore).
    rewrite <- app_assoc.
    repeat constructor; try assumption; now apply matches_spaces.
Qed.

(** A newline after the last term is trailing whitespace. *)
Lemma expiration_words_newline cs :
  expiration_words cs -> expiration_words (cs ++ [newline]).
Proof.
  intros (lead & body & trail & -> & Hlead & Hbody & Htrail).
  exists lead, body, (trail ++ [newline]). repeat split; auto.
  - now rewrite <- !app_assoc.
  - apply Forall_app. split; [assumption |].
    constructor; [cbn; auto | constructor].
Qed.

(** The compiled pattern accepts exactly the words of the grammar. *)
Lemma re_match_anchored_grammar s :
  re_match_anchored EXPIRATION_RE s = true <-> expiration_grammar s.
Proof.
  unfold re_match_anchored, expiration_grammar.
  rewrite orb_true_iff, fullmatch_matches, matches_EXPIRATION_RE.
  split; [| auto].
  intros [H | H]; [assumption |].
  destruct (rev (list_ascii_of_string s)) as [| c before] eqn:Er;
    [discriminate |].
  apply andb_true_iff in H as [Hc H].
  apply Ascii.eqb_eq in Hc. subst c.
  apply fullmatch_matches, matches_EXPIRATION_RE in H.
  rewrite <- (rev_involutive (list_ascii_of_string s)), Er. simpl.
  now apply expiration_words_newline.
Qed.

(** The separators 28 to 31, next line and no-break space are whitespace
    to the pattern, as the ASCII six are. *)
Example expiration_other_whitespace :
  re_match_anchored EXPIRATION_RE ("30d" ++ String "031" "") = true /\
  re_match_anchored EXPIRATION_RE (String "028" "30d") = true /\
  re_match_anchored EXPIRATION_RE
    ("1d" ++ String "133" (String "160" "2h")) = true /\
  re_match_anchored EXPIRATION_RE ("1d" ++ String "127" "2h") = false.
Proof. repeat split. Qed.

(** * Handler attributes *)

Ltac split_name :=
  repeat match goal with
         | |- context [String.eqb ?a ?b] => destruct (String.eqb_spec a b); subst
         | H : context [String.eqb ?a ?b] |- _ =>
             destruct (String.eqb_spec a b); subst
         end.

(** Writing back what an attribute already holds changes nothing. *)
Lemma set_attr_same h name v : attr h name = Some v -> set_attr h name v = h.
Proof.
  destruct h. unfold attr, set_attr. simpl.
  split_name; intros E; try discriminate; injection E as ->; reflexivity.
Qed.

(** Every key of FIELD_RULES names an attribute, so the [setattr] of
    [from_yaml] always lands in the record. *)
Lemma FIELD_RULES_attributes field rule h v :
  In (field, rule) FIELD_RULES -> attr (set_attr h field v) field = Some v.
Proof.
  intros Hin. destruct h. unfold FIELD_RULES in Hin. cbn [In] in Hin.
  repeat (destruct Hin as [Hin | Hin];
          [apply pair_equal_spec in Hin; destruct Hin as [<- _];
           reflexivity |]).
  contradiction.
Qed.

Lemma for_each_cons (A : Type) (x : A) xs body h :
  for_each (x :: xs) body h =
  match body x h with
  | inl e => inl e
  | inr (_, h1) => for_each xs body h1
  end.
Proof. reflexivity. Qed.

(** ** The loop over FIELD_RULES *)

Section FieldLoop.
Variable yaml_entry : dict.

Lemma apply_rule_run entry h :
  apply_rule yaml_entry entry h =
  let value := dict_get yaml_entry (fst entry) in
  if is_none value then inr (tt, h)
  else match snd entry value with
       | inl e => inl e
       | inr true => inr (tt, set_attr h (fst entry) value)
       | inr false =>
           inl (AppEngineConfigException (InvalidValue (fst entry) value))
       end.
Proof.
  destruct entry as [field rule]. unfold apply_rule, is_not_none. simpl.
  destruct (is_none (dict_get yaml_entry field)); simpl; [reflexivity |].
  unfold bind, lift, raise_if.
  destruct (rule (dict_get yaml_entry field)) as [e | []]; reflexivity.
Qed.

(** The loop completes exactly when every rule passes, and then the
    object holds every non-null value of the entry. *)
Lemma rules_loop_completes rules : forall h u h',
  for_each rules (apply_rule yaml_entry) h = inr (u, h') <->
  Forall (passes yaml_entry) rules /\ h' = fold_left (store yaml_entry) rules h.
Proof.
  induction rules as [| entry rules IH]; intros h u h'.
  - simpl. unfold ret. destruct u. split.
    + intros E. injection E as <-. auto.
    + intros [_ ->]. reflexivity.
  - rewrite for_each_cons, apply_rule_run, Forall_cons_iff.
    cbn [fold_left]. unfold passes at 1, store at 2, is_not_none.
    cbv zeta.
    destruct (is_none (dict_get yaml_entry (fst entry))) eqn:Hn; simpl.
    + rewrite IH. tauto.
    + destruct (snd entry (dict_get yaml_entry (fst entry))) as [e | []].
      * split; [discriminate |]. intros [[[Hp | Hp] _] _]; discriminate.
      * rewrite IH. tauto.
      * split; [discriminate |]. intros [[[Hp | Hp] _] _]; discriminate.
Qed.

(** When the loop raises, some rule met a non-null value and either
    raised itself or returned a false result. *)
Lemma rules_loop_raises rules : forall h e,
  for_each rules (apply_rule yaml_entry) h = inl e ->
  exists field rule,
    In (field, rule) rules /\
    is_none (dict_get yaml_entry field) = false /\
    (rule (dict_get yaml_entry field) = inl e \/
     rule (dict_get yaml_entry field) = inr false /\
     e = AppEngineConfigException
           (InvalidValue field (dict_get yaml_entry field))).
Proof.
  induction rules as [| [field rule] rules IH]; intros h e.
  - discriminate.
  - rewrite for_each_cons, apply_rule_run. simpl.
    destruct (is_none (dict_get yaml_entry field)) eqn:Hn.
    + intros H. apply IH in H as (f & r & Hin & H). eauto 6.
    + destruct (rule (dict_get yaml_entry field)) as [e' | []] eqn:Hr.
      * intros E. injection E as <-. exists field, rule. auto.
      * intros H. apply IH in H as (f & r & Hin & H). eauto 6.
      * intros E. injection E as <-. exists field, rule. auto.
Qed.

Lemma store_unset h field rule :
  attr h field = Some VNone ->
  (store yaml_entry) h (field, rule) = set_attr h field (dict_get yaml_entry field).
Proof.
  intros H. unfold store. simpl.
  destruct (dict_get yaml_entry field); simpl; try reflexivity.
  symmetry. now apply set_attr_same.
Qed.

Lemma fold_store_unset h field rule rules :
  attr h field = Some VNone ->
  fold_left (store yaml_entry) ((field, rule) :: rules) h =
  fold_left (store yaml_entry) rules (set_attr h field (dict_get yaml_entry field)).
Proof. intros H. cbn [fold_left]. now rewrite store_unset. Qed.

Lemma store_same h field rule :
  attr h field = Some (dict_get yaml_entry field) ->
  (store yaml_entry) h (field, rule) = h.
Proof.
  intros H. unfold store. simpl.
  destruct (is_not_none _); [now apply set_attr_same | reflexivity].
Qed.

Lemma fold_store_FIELD_RULES u :
  dict_getitem yaml_entry "url" = Some u ->
  fold_left (store yaml_entry) FIELD_RULES (Handler_init u) = (handler_of yaml_entry).
Proof.
  intros Hu.
  assert (Eu : dict_get yaml_entry "url" = u)
    by (unfold dict_get; now rewrite Hu).
  unfold FIELD_RULES.
  repeat (rewrite fold_store_unset by reflexivity).
  cbn [fold_left].
  rewrite store_same by (rewrite Eu; reflexivity).
  unfold handler_of. rewrite Eu. reflexivity.
Qed.
End FieldLoop.

(** * from_yaml, step by step *)

Lemma keys_loop keys h :
  for_each keys (fun field =>
    raise_if (negb (in_FIELD_RULES field))
      (AppEngineConfigException (UnrecognizedField field))) h =
  match find (fun field => negb (in_FIELD_RULES field)) keys with
  | Some field => inl (AppEngineConfigException (UnrecognizedField field))
  | None => inr (tt, h)
  end.
Proof.
  induction keys as [| field keys IH]; [reflexivity |].
  rewrite for_each_cons. cbn [find]. unfold raise_if at 1.
  destruct (negb (in_FIELD_RULES field)); [reflexivity | exact IH].
Qed.

Lemma populate_run yaml_entry h0 :
  populate yaml_entry h0 =
  match unrecognized yaml_entry with
  | Some field => inl (AppEngineConfigException (UnrecognizedField field))
  | None =>
      match for_each FIELD_RULES (apply_rule yaml_entry) h0 with
      | inl e => inl e
      | inr (_, h) =>
          match cross_field_error h with
          | Some m => inl (AppEngineConfigException m)
          | None => inr (tt, h)
          end
      end
  end.
Proof.
  unfold populate, unrecognized. unfold bind at 1. rewrite keys_loop.
  destruct (find _ _); [reflexivity |].
  unfold bind at 1.
  destruct (for_each FIELD_RULES (apply_rule yaml_entry) h0) as [e | [[] h]];
    [reflexivity |].
  unfold bind, self, raise_if, ret, raise, cross_field_error.
  destruct (is_not_none (script h) && static_defined h); [reflexivity |].
  destruct (is_none (script h) && negb (static_defined h)); [reflexivity |].
  destruct (static_defined h); [| reflexivity].
  destruct (is_not_none (static_dir h) && is_not_none (static_files h));
    reflexivity.
Qed.

(** [from_yaml] returns exactly when the entry has a [url] key, only
    recognized keys, values that pass their rules and no cross-field
    conflict; the Handler then holds the entry's values. *)
Lemma from_yaml_returns yaml_entry h :
  from_yaml yaml_entry = inr h <->
  dict_getitem yaml_entry "url" <> None /\
  unrecognized yaml_entry = None /\
  Forall (passes yaml_entry) FIELD_RULES /\
  cross_field_error (handler_of yaml_entry) = None /\
  h = handler_of yaml_entry.
Proof.
  unfold from_yaml.
  destruct (dict_getitem yaml_entry "url") as [u |] eqn:Hu.
  - rewrite populate_run.
    destruct (unrecognized yaml_entry) as [field |].
    { split; [discriminate | intros (_ & E & _); discriminate]. }
    destruct (for_each FIELD_RULES (apply_rule yaml_entry) (Handler_init u))
      as [e | [[] h1]] eqn:Hloop.
    + split; [discriminate |]. intros (_ & _ & Hall & _).
      assert (E : for_each FIELD_RULES (apply_rule yaml_entry) (Handler_init u)
                  = inr (tt, fold_left (store yaml_entry) FIELD_RULES
                                       (Handler_init u)))
        by (apply rules_loop_completes; auto).
      congruence.
    + apply rules_loop_completes in Hloop as [Hall ->].
      rewrite (fold_store_FIELD_RULES _ Hu).
      destruct (cross_field_error (handler_of yaml_entry)) as [m |].
      * split; [discriminate | intros (_ & _ & _ & E & _); discriminate].
      * split.
        -- intros E. injection E as <-. repeat split; auto. discriminate.
        -- intros (_ & _ & _ & _ & ->). reflexivity.
  - split; [discriminate | intros [H _]; contradiction].
Qed.

(** The only exception other than AppEngineConfigException that can leave
    [from_yaml] is the TypeError of the expiration pattern applied to a
    value that is not a string. *)
Lemma from_yaml_raises yaml_entry e :
  from_yaml yaml_entry = inl e ->
  (exists m, e = AppEngineConfigException m) \/
  (e = TypeError /\
   is_none (dict_get yaml_entry "expiration") = false /\
   is_str (dict_get yaml_entry "expiration") = false).
Proof.
  unfold from_yaml.
  destruct (dict_getitem yaml_entry "url") as [u |].
  - rewrite populate_run.
    destruct (unrecognized yaml_entry) as [field |].
    { intros E. injection E as <-. eauto. }
    destruct (for_each FIELD_RULES (apply_rule yaml_entry) (Handler_init u))
      as [e' | [[] h1]] eqn:Hloop.
    + intros E. injection E as ->.
      apply rules_loop_raises in Hloop
        as (field & rule & Hin & Hn & [Hr | [_ ->]]); [| eauto].
      simpl in Hin.
      repeat (destruct Hin as [E | Hin];
              [injection E as <- <-; try discriminate |]);
        [| contradiction].
      right. unfold expiration_match in Hr.
      destruct (dict_get yaml_entry "expiration"); try discriminate;
        injection Hr as <-; auto.
    + destruct (cross_field_error h1) as [m |]; [| discriminate].
      intros E. injection E as <-. eauto.
  - intros E. injection E as <-. eauto.
Qed.

(** * to_api_dict, step by step *)

Lemma for_fold_reads (A B : Type) (body : B -> A -> M B)
    (f : Handler -> B -> A -> result B) :
  (forall acc x h, body acc x h = lift (f h acc x) h) ->
  forall xs acc h, for_fold xs acc body h = lift (fold_result (f h) xs acc) h.
Proof.
  intros Hbody. induction xs as [| x xs IH]; intros acc h; simpl.
  - reflexivity.
  - unfold bind. rewrite Hbody. unfold lift at 1.
    destruct (f h acc x) as [e | acc']; [reflexivity | apply IH].
Qed.

(** [to_api_dict] returns [api_dict] and leaves the object as it was. *)
Lemma to_api_dict_run h :
  to_api_dict h =
  match api_dict h with
  | inl e => inl e
  | inr d => inr (d, h)
  end.
Proof.
  unfold to_api_dict, api_dict. unfold bind at 1, self at 1.
  unfold bind at 1.
  rewrite (for_fold_reads _ direct_step).
  2:{ intros acc [name api_field] h'. unfold getattr, bind, direct_step, translate.
      destruct (attr h' name) as [v |]; [| reflexivity].
      destruct (is_not_none v); [| reflexivity].
      unfold lift.
      destruct (getitem API_VALUES (VStr api_field)) as [e | table];
        [reflexivity |].
      destruct (subscript table v); reflexivity. }
  unfold lift at 1.
  destruct (fold_result (direct_step h) API_FIELDS _) as [e | handler];
    [reflexivity |].
  unfold bind at 1, self at 1.
  destruct (static_defined h); [| reflexivity].
  unfold static_section, static_base. unfold bind at 1.
  destruct (truthy (static_dir h)).
  - unfold bind at 1, lift at 1.
    destruct (py_format (static_dir h)) as [e | formatted]; [reflexivity |].
    unfold ret at 1. unfold bind at 1.
    rewrite (for_fold_reads _ static_step).
    2:{ intros acc [name api_field] h'. unfold getattr, bind, static_step.
        destruct (attr h' name) as [v |]; [| reflexivity].
        destruct (is_not_none v); reflexivity. }
    unfold lift. destruct (fold_result _ _ _); reflexivity.
  - unfold ret at 1. unfold bind at 1.
    rewrite (for_fold_reads _ static_step).
    2:{ intros acc [name api_field] h'. unfold getattr, bind, static_step.
        destruct (attr h' name) as [v |]; [| reflexivity].
        destruct (is_not_none v); reflexivity. }
    unfold lift. destruct (fold_result _ _ _); reflexivity.
Qed.

(** * The rules and the validation table *)

Lemma py_eq_VStr_r k s : py_eq k (VStr s) = true <-> k = VStr s.
Proof.
  destruct k; simpl; try (split; [discriminate | congruence]).
  rewrite String.eqb_eq. split; congruence.
Qed.

Lemma py_eq_VStr_l s v : py_eq (VStr s) v = true <-> v = VStr s.
Proof.
  destruct v; simpl; try (split; [discriminate | congruence]).
  rewrite String.eqb_eq. split; congruence.
Qed.

Lemma is_str_true v : is_str v = true <-> exists s, v = VStr s.
Proof.
  destruct v; simpl; split; try discriminate; eauto;
    intros [s E]; discriminate.
Qed.

Lemma is_none_true v : is_none v = true <-> v = VNone.
Proof. destruct v; simpl; split; congruence. Qed.

Lemma is_not_none_false v : is_not_none v = false <-> v = VNone.
Proof. unfold is_not_none. rewrite negb_false_iff. apply is_none_true. Qed.

Lemma in_FIELD_RULES_recognized field :
  in_FIELD_RULES field = true <->
  exists name, In name recognized_fields /\ field = VStr name.
Proof.
  unfold in_FIELD_RULES. split.
  - rewrite existsb_exists.
    intros ([name rule] & Hin & E). apply py_eq_VStr_l in E.
    exists name. split; [| assumption].
    simpl in Hin.
    repeat (destruct Hin as [E' | Hin];
            [injection E' as <- _; simpl; auto 20 |]).
    contradiction.
  - intros (name & Hin & ->). simpl in Hin.
    repeat (destruct Hin as [<- | Hin]; [reflexivity |]).
    contradiction.
Qed.

Ltac each_rule Hin :=
  unfold FIELD_RULES in Hin; cbn [In] in Hin;
  repeat (destruct Hin as [Hin | Hin];
          [apply pair_equal_spec in Hin; destruct Hin as [<- <-] |]);
  [.. | contradiction].

Lemma py_in_cons v c tuple : py_in v (c :: tuple) = py_eq c v || py_in v tuple.
Proof. reflexivity. Qed.

Lemma py_in_nil v : py_in v [] = false.
Proof. reflexivity. Qed.

Lemma inr_true_iff (b : bool) : (inr b : result bool) = inr true <-> b = true.
Proof. split; congruence. Qed.

(** Each entry of FIELD_RULES returns a true result exactly on the values
    that satisfy the field's predicate. *)
Lemma rule_accepts field rule v :
  In (field, rule) FIELD_RULES ->
  rule v = inr true <-> field_predicate field v.
Proof.
  intros Hin. each_rule Hin; unfold field_predicate;
    cbn -[py_in py_eq expiration_match In expiration_grammar].
  all: try (rewrite inr_true_iff; apply is_str_true).
  all: try (rewrite inr_true_iff, !py_in_cons, py_in_nil, orb_false_r,
              !orb_true_iff, !py_eq_VStr_l;
            simpl; intuition congruence).
  - rewrite inr_true_iff. destruct v; simpl; split; try discriminate; eauto;
      intros [b' E]; discriminate.
  - unfold expiration_match. split.
    + destruct v; try discriminate. intros E. injection E as E.
      apply re_match_anchored_grammar in E. eauto.
    + intros (s & -> & Hs). apply re_match_anchored_grammar in Hs.
      now rewrite Hs.
  - rewrite inr_true_iff. destruct v; simpl; split; try discriminate; eauto;
      intros [b' E]; discriminate.
  - rewrite inr_true_iff, !py_in_cons, py_in_nil, orb_false_r, !orb_true_iff.
    split.
    + intros [E | [E | [E | E]]]; eexists; (split; [| exact E]); simpl; auto.
    + intros (n & Hn & E). simpl in Hn.
      destruct Hn as [<- | [<- | [<- | [<- | []]]]]; auto.
Qed.

(** * Properties of from_yaml *)

Lemma dict_getitem_absent d k :
  ~ In (VStr k) (map fst d) -> dict_getitem d k = None.
Proof.
  induction d as [| [k' v] d IH]; simpl; intros H; [reflexivity |].
  destruct (py_eq k' (VStr k)) eqn:E.
  - apply py_eq_VStr_r in E. subst. tauto.
  - apply IH. tauto.
Qed.

Lemma recognized_has_rule field :
  In field recognized_fields -> exists rule, In (field, rule) FIELD_RULES.
Proof.
  intros H. simpl in H.
  repeat (destruct H as [<- | H];
          [eexists; unfold FIELD_RULES; cbn [In]; auto 20 |]).
  contradiction.
Qed.

(** No cross-field conflict: exactly one of script and static, and not
    both static targets. *)
Lemma cross_field_error_None h :
  cross_field_error h = None <->
  xorb (is_not_none (script h)) (static_defined h) = true /\
  is_not_none (static_dir h) && is_not_none (static_files h) = false.
Proof.
  unfold cross_field_error, static_defined, is_not_none.
  destruct (is_none (script h)), (is_none (static_dir h)),
    (is_none (static_files h)); simpl; split;
    (discriminate || (intros [? ?]; discriminate) || auto).
Qed.

(** Every Handler that [from_yaml] returns has a script or is static, not
    both, and has at most one static target. *)
Lemma from_yaml_cross_field_invariant yaml_entry h :
  from_yaml yaml_entry = inr h ->
  xorb (is_not_none (script h)) (static_defined h) = true /\
  is_not_none (static_dir h) && is_not_none (static_files h) = false.
Proof.
  intros H. apply from_yaml_returns in H as (_ & _ & _ & Hc & ->).
  now apply cross_field_error_None.
Qed.

(** An entry with a cross-field conflict never yields a Handler: it raises
    AppEngineConfigException, or the TypeError of a non-string expiration. *)
Lemma from_yaml_conflict yaml_entry :
  let is_set name := is_not_none (dict_get yaml_entry name) in
  is_set "script" && (is_set "static_dir" || is_set "static_files") = true \/
  is_set "script" || is_set "static_dir" || is_set "static_files" = false \/
  is_set "static_dir" && is_set "static_files" = true ->
  exists e, from_yaml yaml_entry = inl e /\
    ((exists m, e = AppEngineConfigException m) \/
     e = TypeError /\ is_str (dict_get yaml_entry "expiration") = false).
Proof.
  intros is_set Hconflict.
  destruct (from_yaml yaml_entry) as [e | h] eqn:H.
  - exists e. split; [reflexivity |].
    apply from_yaml_raises in H as [H | (-> & _ & H)]; auto.
  - exfalso. apply from_yaml_cross_field_invariant in H as H'.
    apply from_yaml_returns in H as (_ & _ & _ & _ & ->).
    unfold static_defined in H'. simpl in H'. subst is_set. simpl in Hconflict.
    destruct H' as [H1 H2].
    destruct (is_not_none (dict_get yaml_entry "script")),
      (is_not_none (dict_get yaml_entry "static_dir")),
      (is_not_none (dict_get yaml_entry "static_files"));
      simpl in *; intuition discriminate.
Qed.

(** C1 (defect): a script together with a static target must be answered
    with AppEngineConfigException, but when the entry also carries an
    expiration that is not a string, the expiration pattern is applied to
    it first and [from_yaml] raises TypeError instead. *)
Theorem from_yaml_conflict_TypeError :
  from_yaml [ (VStr "url", VStr "/x"); (VStr "script", VStr "x.py");
              (VStr "static_dir", VStr "x"); (VStr "expiration", VInt 30) ]
  = inl TypeError.
Proof. reflexivity. Qed.

(** C6: an entry without the key [url] makes [from_yaml] raise the
    missing-url AppEngineConfigException whatever else the entry holds, so
    this check comes before the unknown-field check, the field rules and
    the cross-field checks. *)
Theorem from_yaml_missing_url yaml_entry :
  ~ In (VStr "url") (map fst yaml_entry) ->
  from_yaml yaml_entry = inl (AppEngineConfigException (MissingUrl yaml_entry)).
Proof.
  intros H. unfold from_yaml. now rewrite (dict_getitem_absent _ _ H).
Qed.

Lemma from_yaml_missing_url_witness :
  let yaml_entry :=
    [ (VStr "bogus", VInt 1); (VStr "script", VInt 5);
      (VStr "static_dir", VStr "x"); (VStr "expiration", VInt 30) ] in
  ~ In (VStr "url") (map fst yaml_entry) /\
  from_yaml yaml_entry = inl (AppEngineConfigException (MissingUrl yaml_entry)).
Proof.
  intros yaml_entry.
  assert (H : ~ In (VStr "url") (map fst yaml_entry))
    by (simpl; intuition discriminate).
  split; [exact H | exact (@from_yaml_missing_url yaml_entry H)].
Defined.

(** C5: an entry with a key outside the recognized fields makes [from_yaml]
    raise AppEngineConfigException whatever its other content: for the
    missing url when there is none, and otherwise for an unrecognized key
    of the entry. *)
Theorem from_yaml_unrecognized_field yaml_entry field :
  In field (map fst yaml_entry) ->
  (forall name, In name recognized_fields -> field <> VStr name) ->
  exists m,
    from_yaml yaml_entry = inl (AppEngineConfigException m) /\
    (m = MissingUrl yaml_entry \/
     exists f, m = UnrecognizedField f /\ In f (map fst yaml_entry) /\
               forall name, In name recognized_fields -> f <> VStr name).
Proof.
  intros Hin Hout. unfold from_yaml.
  destruct (dict_getitem yaml_entry "url") as [u |]; [| eauto].
  rewrite populate_run. unfold unrecognized.
  destruct (find _ _) as [f |] eqn:Hf.
  - apply find_some in Hf as [Hf1 Hf2].
    exists (UnrecognizedField f). split; [reflexivity |]. right.
    exists f. repeat split; [assumption |].
    intros name Hname ->. apply negb_true_iff in Hf2.
    assert (E : in_FIELD_RULES (VStr name) = true)
      by (apply in_FIELD_RULES_recognized; eauto).
    congruence.
  - exfalso. apply (find_none _ _ Hf) in Hin. apply negb_false_iff in Hin.
    apply in_FIELD_RULES_recognized in Hin as (name & Hname & ->).
    now apply (Hout name).
Qed.

Lemma from_yaml_unrecognized_field_witness :
  exists m,
    from_yaml [ (VStr "url", VStr "/"); (VStr "script", VStr "a.py");
                (VStr "handler", VStr "b.py") ]
    = inl (AppEngineConfigException m).
Proof.
  destruct (@from_yaml_unrecognized_field
              [ (VStr "url", VStr "/"); (VStr "script", VStr "a.py");
                (VStr "handler", VStr "b.py") ]
              (VStr "handler")) as (m & E & _).
  - simpl. auto.
  - intros name Hname E. injection E as <-. simpl in Hname.
    repeat (destruct Hname as [Hname | Hname]; [discriminate |]).
    contradiction.
  - exists m. exact E.
Defined.

(** C4 (as amended): in an entry whose expiration is null or a string, a
    recognized field with a non-null value that fails its predicate makes
    [from_yaml] raise AppEngineConfigException, where the predicate of
    http_headers is only to be a mapping. *)
Theorem from_yaml_invalid_value yaml_entry field :
  In field recognized_fields ->
  dict_get yaml_entry field <> VNone ->
  ~ field_predicate field (dict_get yaml_entry field) ->
  is_none (dict_get yaml_entry "expiration")
  || is_str (dict_get yaml_entry "expiration") = true ->
  exists m, from_yaml yaml_entry = inl (AppEngineConfigException m).
Proof.
  intros Hfield Hset Hbad Hexp.
  destruct (from_yaml yaml_entry) as [e | h] eqn:H.
  - apply from_yaml_raises in H as [[m ->] | (_ & H1 & H2)]; [eauto |].
    rewrite H1, H2 in Hexp. discriminate.
  - exfalso. apply from_yaml_returns in H as (_ & _ & Hall & _).
    apply recognized_has_rule in Hfield as [rule Hrule].
    rewrite Forall_forall in Hall. apply Hall in Hrule as Hp.
    destruct Hp as [Hp | Hp]; simpl in Hp.
    + apply is_none_true in Hp. contradiction.
    + apply (rule_accepts _ Hrule) in Hp. contradiction.
Qed.

Lemma from_yaml_invalid_value_witness :
  exists m,
    from_yaml [ (VStr "url", VStr "/"); (VStr "script", VStr "a.py");
                (VStr "secure", VStr "sometimes"); (VStr "expiration", VStr "1d") ]
    = inl (AppEngineConfigException m).
Proof.
  apply (@from_yaml_invalid_value
           [ (VStr "url", VStr "/"); (VStr "script", VStr "a.py");
             (VStr "secure", VStr "sometimes"); (VStr "expiration", VStr "1d") ]
           "secure").
  - simpl. auto 20.
  - discriminate.
  - unfold field_predicate. simpl. intuition discriminate.
  - reflexivity.
Defined.

(** C4 (counterexample): an http_headers mapping with an integer key and an
    integer value is not a string-to-string mapping, and [from_yaml]
    accepts it. *)
Lemma http_headers_not_inspected :
  let yaml_entry :=
    [ (VStr "url", VStr "/"); (VStr "script", VStr "a.py");
      (VStr "http_headers", VDict [ (VInt 1, VInt 2) ]) ] in
  dict_get yaml_entry "http_headers" <> VNone /\
  ~ string_to_string_mapping (dict_get yaml_entry "http_headers") /\
  exists h, from_yaml yaml_entry = inr h /\
            http_headers h = VDict [ (VInt 1, VInt 2) ].
Proof.
  simpl. split; [discriminate |]. split.
  - intros (items & E & Hall). injection E as <-.
    inversion Hall as [| item rest [Hk _] _]. discriminate.
  - eexists. split; reflexivity.
Qed.

(** * The expiration predicate *)

(** An expiration that starts with the file separator, code point 28, is
    accepted: the entry yields a Handler. *)
Example from_yaml_separator_before_expiration :
  exists h,
    from_yaml [ (VStr "url", VStr "/"); (VStr "static_dir", VStr "s");
                (VStr "expiration", VStr (String "028" "30d")) ] = inr h /\
    expiration h = VStr (String "028" "30d").
Proof. eexists. split; reflexivity. Qed.

Lemma expiration_rejected yaml_entry s :
  dict_get yaml_entry "expiration" = VStr s ->
  ~ expiration_grammar s ->
  exists m, from_yaml yaml_entry = inl (AppEngineConfigException m).
Proof.
  intros E Hs.
  destruct (from_yaml yaml_entry) as [e | h] eqn:H.
  - apply from_yaml_raises in H as [[m ->] | (_ & _ & H)]; [eauto |].
    rewrite E in H. discriminate.
  - exfalso. apply from_yaml_returns in H as (_ & _ & Hall & _).
    rewrite Forall_forall in Hall.
    destruct (Hall ("expiration", expiration_match)) as [Hp | Hp];
      [unfold FIELD_RULES; cbn [In]; auto | ..]; cbn [fst snd] in Hp;
      rewrite E in Hp; [discriminate |].
    unfold expiration_match in Hp. rewrite inr_true_iff in Hp.
    now apply re_match_anchored_grammar in Hp.
Qed.

(** C7: on strings, the expiration rule of FIELD_RULES accepts exactly the
    words of the grammar (whitespace, then delta terms separated by
    whitespace, then whitespace, where whitespace is the twelve listed
    characters); "30d", "1d 2h 3m", "45" and "10 20M" are
    accepted; an entry whose expiration is "abc", "30x" or "" makes
    [from_yaml] raise AppEngineConfigException. *)
Theorem expiration_rule_grammar :
  In ("expiration", expiration_match) FIELD_RULES /\
  (forall s, expiration_match (VStr s) = inr true <-> expiration_grammar s) /\
  (forall s, expiration_match (VStr s) = inr false <-> ~ expiration_grammar s) /\
  Forall (fun s => expiration_match (VStr s) = inr true)
         [ "30d"; "1d 2h 3m"; "45"; "10 20M" ] /\
  Forall (fun s =>
            expiration_match (VStr s) = inr false /\
            forall yaml_entry,
              dict_get yaml_entry "expiration" = VStr s ->
              exists m, from_yaml yaml_entry = inl (AppEngineConfigException m))
         [ "abc"; "30x"; "" ].
Proof.
  assert (Hacc : forall s,
             expiration_match (VStr s) = inr true <-> expiration_grammar s).
  { intros s. unfold expiration_match. rewrite inr_true_iff.
    apply re_match_anchored_grammar. }
  assert (Hrej : forall s,
             expiration_match (VStr s) = inr false <-> ~ expiration_grammar s).
  { intros s. rewrite <- Hacc. unfold expiration_match.
    destruct (re_match_anchored EXPIRATION_RE s); split; congruence. }
  split; [unfold FIELD_RULES; cbn [In]; auto |].
  split; [exact Hacc |]. split; [exact Hrej |]. split.
  - repeat constructor.
  - repeat constructor;
      intros yaml_entry E; apply (expiration_rejected _ E); apply Hrej;
      reflexivity.
Qed.

(** * Mappings: reading after writing *)

Lemma dict_getitem_set d k v k' :
  dict_getitem (dict_set d k v) k' =
  if k' =? k then Some v else dict_getitem d k'.
Proof.
  assert (Hsame : forall a b, py_eq (VStr a) (VStr b) = (b =? a)).
  { intros a b. simpl. apply String.eqb_sym. }
  induction d as [| [k0 v0] d IH]; cbn [dict_set dict_getitem].
  - rewrite Hsame. reflexivity.
  - destruct (py_eq k0 (VStr k)) eqn:E; cbn [dict_getitem].
    + apply py_eq_VStr_r in E. subst k0. rewrite Hsame.
      destruct (k' =? k); reflexivity.
    + rewrite IH. destruct (k' =? k) eqn:Ek; [| reflexivity].
      apply String.eqb_eq in Ek. subst k'. now rewrite E.
Qed.

Lemma dict_getitem_if_set (b : bool) d k v k' :
  dict_getitem (if b then dict_set d k v else d) k' =
  if b && (k' =? k) then Some v else dict_getitem d k'.
Proof. destruct b; [apply dict_getitem_set | reflexivity]. Qed.

(** Writing to a key that is there keeps the keys as they are. *)
Lemma dict_set_keys d k v :
  dict_getitem d k <> None -> map fst (dict_set d k v) = map fst d.
Proof.
  induction d as [| [k0 v0] d IH]; cbn [dict_set dict_getitem map fst].
  - congruence.
  - destruct (py_eq k0 (VStr k)); cbn [map fst]; [reflexivity |].
    intros H. now rewrite IH.
Qed.

Lemma dict_get_set d k v k' :
  dict_get (dict_set d k v) k' = if k' =? k then v else dict_get d k'.
Proof.
  unfold dict_get. rewrite dict_getitem_set. now destruct (k' =? k).
Qed.

(** Decide the comparisons of string literals in the goal. *)
Ltac literal_eqb :=
  repeat match goal with
         | |- context [String.eqb ?a ?b] =>
             let r := eval vm_compute in (String.eqb a b) in
             lazymatch r with
             | true => change (String.eqb a b) with true
             | false => change (String.eqb a b) with false
             end
         end.

(** * The translation table of the specification *)

Ltac each_pair Hin :=
  cbn [In directly_mapped_fields secondary_static_fields
       API_FIELDS STATIC_API_FIELDS] in Hin;
  repeat (destruct Hin as [Hin | Hin];
          [apply pair_equal_spec in Hin; destruct Hin as [<- <-] |]);
  [.. | contradiction].

(** On a hashable value, the lookup in API_VALUES is the lookup in the
    table of the specification. *)
Lemma translate_enum name key v :
  In (name, key) directly_mapped_fields ->
  hashable v = true ->
  translate key v =
  match enum_constant name v with
  | Some c => inr (VStr c)
  | None => inl (KeyError v)
  end.
Proof.
  intros Hin Hv. unfold directly_mapped_fields in Hin.
  each_pair Hin; unfold translate, enum_constant, enum_translation;
    literal_eqb;
    match goal with
    | |- context [getitem API_VALUES ?k] =>
        let r := eval vm_compute in (getitem API_VALUES k) in
        change (getitem API_VALUES k) with r
    end;
    cbn [subscript]; unfold getitem; rewrite Hv; cbn [find fst snd];
    repeat (destruct (py_eq _ v); [reflexivity |]); reflexivity.
Qed.

(** A value that satisfies the predicate of a directly mapped field is
    hashable and has a constant in the table. *)
Lemma predicate_enum name key v :
  In (name, key) directly_mapped_fields ->
  field_predicate name v ->
  hashable v = true /\ exists c, enum_constant name v = Some c.
Proof.
  intros Hin Hv. unfold directly_mapped_fields in Hin.
  each_pair Hin; unfold field_predicate in Hv;
    cbn [String.eqb Ascii.eqb Bool.eqb] in Hv.
  1-3: cbn [In] in Hv;
       repeat (destruct Hv as [<- | Hv];
               [split; [reflexivity | eexists; reflexivity] |]);
       contradiction.
  destruct Hv as (n & Hn & E). split.
  - destruct v; try reflexivity; discriminate E.
  - unfold enum_constant, enum_translation. literal_eqb. cbn [find fst snd].
    destruct (py_eq (VInt 301) v) eqn:E1; [eauto |].
    destruct (py_eq (VInt 302) v) eqn:E2; [eauto |].
    destruct (py_eq (VInt 303) v) eqn:E3; [eauto |].
    destruct (py_eq (VInt 307) v) eqn:E4; [eauto |].
    exfalso. cbn [In] in Hn.
    destruct Hn as [<- | [<- | [<- | [<- | []]]]]; congruence.
Qed.

(** ** Validated Handlers *)

(** Each attribute of a Handler returned by [from_yaml] holds the entry's
    value for it, which is [None] or satisfies the field's predicate. *)
Lemma validated_attr yaml_entry h name :
  from_yaml yaml_entry = inr h ->
  In name recognized_fields ->
  attr h name = Some (dict_get yaml_entry name) /\
  (dict_get yaml_entry name = VNone \/
   field_predicate name (dict_get yaml_entry name)).
Proof.
  intros H Hname. apply from_yaml_returns in H as (_ & _ & Hall & _ & ->).
  split.
  - cbn [In recognized_fields] in Hname.
    repeat (destruct Hname as [<- | Hname]; [reflexivity |]). contradiction.
  - apply recognized_has_rule in Hname as [rule Hrule].
    rewrite Forall_forall in Hall.
    destruct (Hall _ Hrule) as [Hp | Hp]; cbn [fst snd] in Hp.
    + left. now apply is_none_true.
    + right. now apply (rule_accepts _ Hrule).
Qed.

(** The loop over API_FIELDS on a validated Handler: it completes, leaves
    the other keys alone, and gives each directly mapped field that is set
    its constant. *)
Lemma direct_loop_validated yaml_entry h d0 :
  from_yaml yaml_entry = inr h ->
  exists d1,
    fold_result (direct_step h) API_FIELDS d0 = inr d1 /\
    (forall k, ~ In k (map snd directly_mapped_fields) ->
               dict_getitem d1 k = dict_getitem d0 k) /\
    (forall name key, In (name, key) directly_mapped_fields ->
       exists v, attr h name = Some v /\
         (v = VNone -> dict_getitem d1 key = dict_getitem d0 key) /\
         (v <> VNone ->
          exists c, enum_constant name v = Some c /\
                    dict_getitem d1 key = Some (VStr c))).
Proof.
  intros H.
  assert (Hstep : forall name key, In (name, key) directly_mapped_fields ->
            exists v c, attr h name = Some v /\
              (v = VNone \/
               v <> VNone /\ enum_constant name v = Some c /\
               translate key v = inr (VStr c))).
  { intros name key Hin.
    assert (Hname : In name recognized_fields)
      by (each_pair Hin; cbn [In recognized_fields]; auto 20).
    destruct (validated_attr _ H Hname) as [Ha [Hv | Hv]].
    - exists VNone, "". rewrite <- Hv. auto.
    - destruct (predicate_enum _ Hin Hv) as [Hh [c Hc]].
      destruct (dict_get yaml_entry name) eqn:Ev;
        [exists VNone, ""; auto | ..];
        eexists _, c; (split; [exact Ha |]); right;
        (split; [discriminate |]); (split; [exact Hc |]);
        rewrite (translate_enum _ Hin Hh), Hc; reflexivity. }
  destruct (Hstep "secure" "securityLevel") as (v1 & c1 & A1 & S1);
    [cbn; auto |].
  destruct (Hstep "login" "login") as (v2 & c2 & A2 & S2); [cbn; auto |].
  destruct (Hstep "auth_fail_action" "authFailAction")
    as (v3 & c3 & A3 & S3); [cbn; auto |].
  destruct (Hstep "redirect_http_response_code" "redirectHttpResponseCode")
    as (v4 & c4 & A4 & S4); [cbn; auto 6 |].
  assert (Hset : forall v, v <> VNone -> is_not_none v = true)
    by (intros [] Hv; reflexivity || contradiction).
  unfold API_FIELDS. cbn [fold_result direct_step].
  rewrite A1.
  destruct S1 as [-> | (N1 & C1 & ->)]; [| rewrite (Hset _ N1)];
    cbn [is_not_none is_none negb]; rewrite A2;
    (destruct S2 as [-> | (N2 & C2 & ->)]; [| rewrite (Hset _ N2)]);
    cbn [is_not_none is_none negb]; rewrite A3;
    (destruct S3 as [-> | (N3 & C3 & ->)]; [| rewrite (Hset _ N3)]);
    cbn [is_not_none is_none negb]; rewrite A4;
    (destruct S4 as [-> | (N4 & C4 & ->)]; [| rewrite (Hset _ N4)]);
    cbn [is_not_none is_none negb];
    (eexists; split; [reflexivity |]); split.
  all: try (intros k Hk; cbn [map snd directly_mapped_fields In] in Hk;
            rewrite ?dict_getitem_set;
            repeat match goal with
                   | |- context [String.eqb k ?s] =>
                       destruct (String.eqb_spec k s); [subst; tauto |]
                   end;
            reflexivity).
  all: intros name key Hin; each_pair Hin;
    eexists; (split; [eassumption |]);
    rewrite ?dict_getitem_set; literal_eqb;
    (split; [try reflexivity; intros; contradiction |]);
    intros; try contradiction; eauto.
Qed.

(** ** The static section *)

(** Read the attributes that the goal asks for by a literal name. *)
Ltac read_attrs h :=
  try change (attr h "upload") with (Some (upload h));
  try change (attr h "http_headers") with (Some (http_headers h));
  try change (attr h "mime_type") with (Some (mime_type h));
  try change (attr h "expiration") with (Some (expiration h));
  try change (attr h "application_readable")
        with (Some (application_readable h));
  cbv beta iota.

Lemma static_loop h base :
  fold_result (static_step h) STATIC_API_FIELDS base
  = inr (apply_secondary h base).
Proof. reflexivity. Qed.

(** Each secondary field that is set is in the section under its key;
    one that is not set leaves the key as the base section has it. *)
Lemma secondary_lookup h base name key :
  In (name, key) secondary_static_fields ->
  exists v, attr h name = Some v /\
    dict_getitem (apply_secondary h base) key =
    if is_not_none v then Some v else dict_getitem base key.
Proof.
  intros Hin. each_pair Hin; (eexists; split; [reflexivity |]);
    unfold apply_secondary, STATIC_API_FIELDS; cbn [fold_left fst snd];
    read_attrs h; rewrite !dict_getitem_if_set; literal_eqb;
    rewrite ?andb_false_r, ?andb_true_r; reflexivity.
Qed.

Lemma secondary_other h base k :
  ~ In k (map snd secondary_static_fields) ->
  dict_getitem (apply_secondary h base) k = dict_getitem base k.
Proof.
  intros Hk. cbn [map snd secondary_static_fields In] in Hk.
  unfold apply_secondary, STATIC_API_FIELDS; cbn [fold_left fst snd].
  read_attrs h. rewrite !dict_getitem_if_set.
  repeat match goal with
         | |- context [String.eqb k ?s] =>
             destruct (String.eqb_spec k s); [subst; tauto |]
         end.
  now rewrite !andb_false_r.
Qed.

(** A non-empty string in [static_dir] gives the section its path and the
    generated upload pattern. *)
Lemma static_base_static_dir h s :
  static_dir h = VStr s -> s <> "" ->
  static_base h =
  inr [ (VStr "path", VStr s);
        (VStr "uploadPathRegex", VStr (s ++ "/.*")%string) ].
Proof.
  intros E Hs. unfold static_base. rewrite E. cbn [truthy py_format].
  apply String.eqb_neq in Hs. now rewrite Hs.
Qed.

(** Without a true [static_dir] the path is [static_files], whatever it
    holds. *)
Lemma static_base_otherwise h :
  truthy (static_dir h) = false ->
  static_base h = inr [ (VStr "path", static_files h) ].
Proof. intros E. unfold static_base. now rewrite E. Qed.

Lemma static_base_validated yaml_entry h :
  from_yaml yaml_entry = inr h -> exists base, static_base h = inr base.
Proof.
  intros H. destruct (@validated_attr _ _ "static_dir" H) as [Ha Hv];
    [cbn; auto 20 |].
  assert (E : static_dir h = dict_get yaml_entry "static_dir")
    by (change (attr h "static_dir") with (Some (static_dir h)) in Ha;
        congruence).
  rewrite <- E in Hv. unfold static_base.
  destruct Hv as [-> | [s ->]]; [cbn [truthy]; eauto |].
  cbn [truthy py_format]. destruct (negb (s =? "")); eauto.
Qed.

(** ** The whole mapping *)

(** What [api_dict] is on a validated Handler. *)
Lemma api_dict_validated yaml_entry h :
  from_yaml yaml_entry = inr h ->
  exists d1 base,
    fold_result (direct_step h) API_FIELDS [ (VStr "urlRegex", url h) ]
    = inr d1 /\
    static_base h = inr base /\
    api_dict h =
    inr (if static_defined h
         then dict_set d1 "staticFiles" (VDict (apply_secondary h base))
         else dict_set d1 "script" (VDict [ (VStr "scriptPath", script h) ])).
Proof.
  intros H.
  destruct (@direct_loop_validated _ _ [ (VStr "urlRegex", url h) ] H)
    as (d1 & Hd1 & _).
  destruct (@static_base_validated _ _ H) as [base Hbase].
  exists d1, base. repeat split; try assumption.
  unfold api_dict, static_section. rewrite Hd1, Hbase, static_loop.
  now destruct (static_defined h).
Qed.

(** On a validated Handler [to_api_dict] returns a mapping, and the object
    is as it was. *)
Lemma to_api_dict_validated yaml_entry h :
  from_yaml yaml_entry = inr h ->
  exists d, api_dict h = inr d /\ to_api_dict h = inr (d, h).
Proof.
  intros H. destruct (@api_dict_validated _ _ H) as (d1 & base & _ & _ & E).
  eexists. split; [exact E |]. now rewrite to_api_dict_run, E.
Qed.

(** * Properties of to_api_dict *)

Lemma is_not_none_true v : v <> VNone -> is_not_none v = true.
Proof. destruct v; intros H; reflexivity || contradiction. Qed.

(** C3: on a validated Handler, each of the four directly mapped fields
    that is set puts under its output key the constant that the
    translation table gives for its value, and a field that is not set
    leaves its output key absent. *)
Theorem to_api_dict_direct_fields yaml_entry h :
  from_yaml yaml_entry = inr h ->
  exists d,
    to_api_dict h = inr (d, h) /\
    forall name key, In (name, key) directly_mapped_fields ->
      exists v, attr h name = Some v /\
        (v = VNone -> dict_getitem d key = None) /\
        (v <> VNone ->
         exists c, enum_constant name v = Some c /\
                   dict_getitem d key = Some (VStr c)).
Proof.
  intros H.
  destruct (@direct_loop_validated _ _ [ (VStr "urlRegex", url h) ] H)
    as (d1 & Hd1 & _ & Hfields).
  destruct (@api_dict_validated _ _ H) as (d1' & base & Hd1' & _ & E).
  assert (d1' = d1) by congruence. subst d1'.
  eexists. split; [rewrite to_api_dict_run, E; reflexivity |].
  intros name key Hin.
  destruct (Hfields name key Hin) as (v & Hv & Hnone & Hset).
  exists v. split; [exact Hv |].
  assert (Hkey : forall X,
            dict_getitem
              (if static_defined h then dict_set d1 "staticFiles" X
               else dict_set d1 "script"
                      (VDict [ (VStr "scriptPath", script h) ])) key
            = dict_getitem d1 key).
  { intros X. destruct (static_defined h); rewrite dict_getitem_set;
      each_pair Hin; reflexivity. }
  rewrite Hkey. split.
  - intros Ev. rewrite (Hnone Ev). each_pair Hin; reflexivity.
  - exact Hset.
Qed.

Lemma to_api_dict_direct_fields_witness :
  exists h d,
    from_yaml [ (VStr "url", VStr "/"); (VStr "static_dir", VStr "static");
                (VStr "secure", VStr "always") ] = inr h /\
    to_api_dict h = inr (d, h) /\
    dict_getitem d "securityLevel" = Some (VStr "SECURE_ALWAYS") /\
    dict_getitem d "login" = None.
Proof.
  eexists.
  destruct (@to_api_dict_direct_fields
              [ (VStr "url", VStr "/"); (VStr "static_dir", VStr "static");
                (VStr "secure", VStr "always") ] _ eq_refl)
    as (d & Hd & Hfields).
  exists d. split; [reflexivity |]. split; [exact Hd |]. split.
  - destruct (Hfields "secure" "securityLevel") as (v & Hv & _ & Hset);
      [cbn; auto |].
    injection Hv as <-.
    destruct Hset as (c & Hc & E); [discriminate |].
    injection Hc as <-. exact E.
  - destruct (Hfields "login" "login") as (v & Hv & Hnone & _);
      [cbn; auto |].
    injection Hv as <-. now apply Hnone.
Defined.

(** C8: on a validated static Handler the secondary fields are applied
    after the section is built: each one that is set is in the section
    under its output key, so an explicit [upload] replaces the pattern
    generated from [static_dir], which stays only when [upload] is not
    set. *)
Theorem to_api_dict_static_section yaml_entry h :
  from_yaml yaml_entry = inr h ->
  static_defined h = true ->
  exists d section,
    to_api_dict h = inr (d, h) /\
    dict_getitem d "staticFiles" = Some (VDict section) /\
    (forall name key, In (name, key) secondary_static_fields ->
       exists v, attr h name = Some v /\
                 (v <> VNone -> dict_getitem section key = Some v)) /\
    (static_dir h <> VNone -> upload h <> VNone ->
     dict_getitem section "uploadPathRegex" = Some (upload h)) /\
    (forall s, static_dir h = VStr s -> s <> "" -> upload h = VNone ->
     dict_getitem section "uploadPathRegex" = Some (VStr (s ++ "/.*")%string)).
Proof.
  intros H Hstatic.
  destruct (@api_dict_validated _ _ H) as (d1 & base & _ & Hbase & E).
  rewrite Hstatic in E.
  exists (dict_set d1 "staticFiles" (VDict (apply_secondary h base))),
    (apply_secondary h base).
  split; [rewrite to_api_dict_run, E; reflexivity |].
  split; [rewrite dict_getitem_set; reflexivity |].
  assert (Hupload : dict_getitem (apply_secondary h base) "uploadPathRegex"
                    = if is_not_none (upload h) then Some (upload h)
                      else dict_getitem base "uploadPathRegex").
  { destruct (@secondary_lookup h base "upload" "uploadPathRegex")
      as (v & Hv & Hl); [cbn; auto |].
    injection Hv as <-. exact Hl. }
  split; [| split].
  - intros name key Hin.
    destruct (@secondary_lookup h base name key Hin) as (v & Hv & Hl).
    exists v. split; [exact Hv |]. intros Hset.
    now rewrite Hl, (is_not_none_true Hset).
  - intros _ Hset. now rewrite Hupload, (is_not_none_true Hset).
  - intros s Es Hs Eu. rewrite Hupload, Eu. cbn [is_not_none is_none negb].
    rewrite (static_base_static_dir _ Es Hs) in Hbase.
    injection Hbase as <-. reflexivity.
Qed.

Lemma to_api_dict_static_section_witness :
  exists h d section,
    from_yaml [ (VStr "url", VStr "/"); (VStr "static_dir", VStr "static");
                (VStr "upload", VStr "static/.*\.png");
                (VStr "application_readable", VBool false) ] = inr h /\
    to_api_dict h = inr (d, h) /\
    dict_getitem d "staticFiles" = Some (VDict section) /\
    dict_getitem section "uploadPathRegex" = Some (VStr "static/.*\.png") /\
    dict_getitem section "applicationReadable" = Some (VBool false).
Proof.
  eexists.
  destruct (@to_api_dict_static_section
              [ (VStr "url", VStr "/"); (VStr "static_dir", VStr "static");
                (VStr "upload", VStr "static/.*\.png");
                (VStr "application_readable", VBool false) ] _
              eq_refl eq_refl)
    as (d & section & Hd & Hs & Hfields & Hupload & _).
  exists d, section. split; [reflexivity |]. split; [exact Hd |].
  split; [exact Hs |]. split.
  - apply Hupload; discriminate.
  - destruct (Hfields "application_readable" "applicationReadable")
      as (v & Hv & Hset); [cbn; auto 6 |].
    injection Hv as <-. apply Hset. discriminate.
Defined.

(** C9: on a validated Handler [to_api_dict] returns a mapping and does
    not raise, the object is afterwards what it was before, and a second
    call returns the same mapping as the first. *)
Theorem to_api_dict_total_pure yaml_entry h :
  from_yaml yaml_entry = inr h ->
  exists d,
    to_api_dict h = inr (d, h) /\
    (first <- to_api_dict ;; second <- to_api_dict ;; ret (first, second)) h
    = inr ((d, d), h).
Proof.
  intros H. destruct (@to_api_dict_validated _ _ H) as (d & _ & E).
  exists d. split; [exact E |]. unfold bind, ret. now rewrite !E.
Qed.

Lemma to_api_dict_total_pure_witness :
  exists h d,
    from_yaml [ (VStr "url", VStr "/api"); (VStr "script", VStr "api.py") ]
    = inr h /\
    to_api_dict h = inr (d, h) /\
    (first <- to_api_dict ;; second <- to_api_dict ;; ret (first, second)) h
    = inr ((d, d), h).
Proof.
  eexists.
  destruct (@to_api_dict_total_pure
              [ (VStr "url", VStr "/api"); (VStr "script", VStr "api.py") ] _
              eq_refl) as (d & Hd & Htwice).
  exists d. split; [reflexivity |]. split; [exact Hd | exact Htwice].
Defined.

(** The output always carries the url under [urlRegex]. *)
Lemma to_api_dict_urlRegex yaml_entry h :
  from_yaml yaml_entry = inr h ->
  exists d, to_api_dict h = inr (d, h) /\
            dict_getitem d "urlRegex" = Some (url h).
Proof.
  intros H.
  destruct (@direct_loop_validated _ _ [ (VStr "urlRegex", url h) ] H)
    as (d1 & Hd1 & Hother & _).
  destruct (@api_dict_validated _ _ H) as (d1' & base & Hd1' & _ & E).
  assert (d1' = d1) by congruence. subst d1'.
  eexists. split; [rewrite to_api_dict_run, E; reflexivity |].
  assert (Hurl : dict_getitem d1 "urlRegex" = Some (url h)).
  { rewrite Hother; [reflexivity |].
    cbn [map snd directly_mapped_fields In]. intuition discriminate. }
  destruct (static_defined h); now rewrite dict_getitem_set.
Qed.

(** C10: the url check only asks for the key, and the rules skip null
    values: setting the url of a valid entry to null leaves it valid, the
    Handler then has no url, and [to_api_dict] emits [urlRegex] with a null
    value. *)
Theorem from_yaml_null_url yaml_entry h :
  from_yaml yaml_entry = inr h ->
  dict_getitem (dict_set yaml_entry "url" VNone) "url" = Some VNone /\
  exists h',
    from_yaml (dict_set yaml_entry "url" VNone) = inr h' /\
    h' = set_attr h "url" VNone /\
    url h' = VNone /\
    exists d, to_api_dict h' = inr (d, h') /\
              dict_getitem d "urlRegex" = Some VNone.
Proof.
  intros H.
  assert (Hkey : dict_getitem (dict_set yaml_entry "url" VNone) "url"
                 = Some VNone)
    by (rewrite dict_getitem_set; reflexivity).
  split; [exact Hkey |].
  apply from_yaml_returns in H as (Hurl & Hkeys & Hall & Hcross & ->).
  assert (Eh : handler_of (dict_set yaml_entry "url" VNone)
               = set_attr (handler_of yaml_entry) "url" VNone).
  { unfold handler_of. rewrite !dict_get_set. literal_eqb. reflexivity. }
  assert (H' : from_yaml (dict_set yaml_entry "url" VNone)
               = inr (set_attr (handler_of yaml_entry) "url" VNone)).
  { apply from_yaml_returns. repeat split.
    - congruence.
    - unfold unrecognized in *. now rewrite dict_set_keys.
    - rewrite Forall_forall in *. intros [field rule] Hin.
      destruct (Hall _ Hin) as [Hp | Hp]; cbn [fst snd] in Hp;
        unfold passes; cbn [fst snd]; rewrite dict_get_set;
        destruct (field =? "url"); auto.
    - rewrite Eh. exact Hcross.
    - now rewrite Eh. }
  eexists. split; [exact H' |]. split; [reflexivity |].
  split; [reflexivity |].
  destruct (@to_api_dict_urlRegex _ _ H') as (d & Hd & Hu). eauto.
Qed.

Lemma from_yaml_null_url_witness :
  exists h' d,
    from_yaml [ (VStr "url", VNone); (VStr "script", VStr "api.py") ] = inr h' /\
    url h' = VNone /\
    to_api_dict h' = inr (d, h') /\
    dict_getitem d "urlRegex" = Some VNone.
Proof.
  destruct (@from_yaml_null_url
              [ (VStr "url", VStr "/api"); (VStr "script", VStr "api.py") ] _
              eq_refl) as (_ & h' & Hh' & _ & Hu & d & Hd & Hr).
  exists h', d. auto.
Defined.

(** A non-empty [static_dir] on a validated Handler is the path of the
    static section. *)
Lemma to_api_dict_static_dir_path yaml_entry h s :
  from_yaml yaml_entry = inr h ->
  static_dir h = VStr s -> s <> "" ->
  exists d section,
    to_api_dict h = inr (d, h) /\
    dict_getitem d "staticFiles" = Some (VDict section) /\
    dict_getitem section "path" = Some (VStr s).
Proof.
  intros H Es Hs.
  destruct (@api_dict_validated _ _ H) as (d1 & base & _ & Hbase & E).
  assert (Hstatic : static_defined h = true)
    by (unfold static_defined; now rewrite Es).
  rewrite Hstatic in E.
  rewrite (static_base_static_dir _ Es Hs) in Hbase. injection Hbase as <-.
  eexists _, _. split; [rewrite to_api_dict_run, E; reflexivity |].
  split; [rewrite dict_getitem_set; reflexivity |].
  rewrite secondary_other; [reflexivity |].
  cbn [map snd secondary_static_fields In]. intuition discriminate.
Qed.

(** C2 (defect): [static_dir] is tested for truth, not against [None], so
    on the validated Handler of an entry whose [static_dir] is the empty
    string the static section gets [static_files], which is [None], as its
    path, and no upload pattern, where it should get path "" and pattern
    "/.*". *)
Theorem to_api_dict_empty_static_dir :
  exists h,
    from_yaml [ (VStr "url", VStr "/"); (VStr "static_dir", VStr "") ] = inr h /\
    static_dir h = VStr "" /\
    to_api_dict h =
    inr ([ (VStr "urlRegex", VStr "/");
           (VStr "staticFiles", VDict [ (VStr "path", VNone) ]) ], h).
Proof. eexists. repeat split. Qed.

(** * More about from_yaml *)

Lemma dict_getitem_present d k :
  dict_getitem d k <> None <-> In (VStr k) (map fst d).
Proof.
  induction d as [| [k' v] d IH]; cbn [dict_getitem map fst In].
  - tauto.
  - destruct (py_eq k' (VStr k)) eqn:E.
    + apply py_eq_VStr_r in E. split; [auto | discriminate].
    + rewrite IH. split; [auto |]. intros [E' | H]; [| exact H].
      subst k'. assert (py_eq (VStr k) (VStr k) = true)
        by now apply py_eq_VStr_r.
      congruence.
Qed.

Lemma unrecognized_None yaml_entry :
  unrecognized yaml_entry = None <->
  forall key, In key (map fst yaml_entry) -> recognized key.
Proof.
  unfold unrecognized, recognized. split.
  - intros H key Hin. apply (find_none _ _ H) in Hin.
    apply negb_false_iff in Hin. now apply in_FIELD_RULES_recognized.
  - intros H. destruct (find _ _) as [f |] eqn:Hf; [| reflexivity].
    apply find_some in Hf as [Hin Hf]. apply negb_true_iff in Hf.
    apply H, in_FIELD_RULES_recognized in Hin. congruence.
Qed.

Lemma rule_has_field field rule :
  In (field, rule) FIELD_RULES -> In field recognized_fields.
Proof.
  intros Hin. unfold FIELD_RULES in Hin. cbn [In] in Hin.
  repeat (destruct Hin as [Hin | Hin];
          [apply pair_equal_spec in Hin; destruct Hin as [<- _];
           cbn; auto 20 |]).
  contradiction.
Qed.

Lemma passes_field_ok yaml_entry :
  Forall (passes yaml_entry) FIELD_RULES <->
  forall name, In name recognized_fields -> field_ok yaml_entry name.
Proof.
  rewrite Forall_forall. unfold field_ok. split.
  - intros H name Hname. apply recognized_has_rule in Hname as [rule Hrule].
    destruct (H _ Hrule) as [Hp | Hp]; cbn [fst snd] in Hp.
    + left. now apply is_none_true.
    + right. now apply (rule_accepts _ Hrule).
  - intros H [field rule] Hin. unfold passes. cbn [fst snd].
    destruct (H field (rule_has_field Hin)) as [Hp | Hp].
    + left. now apply is_none_true.
    + right. now apply (rule_accepts _ Hin).
Qed.

(** [from_yaml] as a cascade of its four stages. *)
Lemma from_yaml_run yaml_entry :
  from_yaml yaml_entry =
  match dict_getitem yaml_entry "url" with
  | None => inl (AppEngineConfigException (MissingUrl yaml_entry))
  | Some u =>
      match unrecognized yaml_entry with
      | Some field => inl (AppEngineConfigException (UnrecognizedField field))
      | None =>
          match for_each FIELD_RULES (apply_rule yaml_entry) (Handler_init u)
          with
          | inl e => inl e
          | inr (_, h) =>
              match cross_field_error h with
              | Some m => inl (AppEngineConfigException m)
              | None => inr h
              end
          end
      end
  end.
Proof.
  unfold from_yaml. destruct (dict_getitem yaml_entry "url"); [| reflexivity].
  rewrite populate_run. destruct (unrecognized yaml_entry); [reflexivity |].
  destruct (for_each _ _ _) as [e | [[] h]]; [reflexivity |].
  destruct (cross_field_error h); reflexivity.
Qed.

(** X1: [from_yaml] returns a Handler exactly for the entries that have the
    key url and only recognized keys, whose fields are each null, absent or
    acceptable to their predicate, and that set either script or one static
    target; the Handler holds the entry's value for every field. *)
Theorem from_yaml_accepts_iff yaml_entry h :
  from_yaml yaml_entry = inr h <->
  In (VStr "url") (map fst yaml_entry) /\
  (forall key, In key (map fst yaml_entry) -> recognized key) /\
  (forall name, In name recognized_fields -> field_ok yaml_entry name) /\
  xorb (is_set yaml_entry "script")
       (is_set yaml_entry "static_dir" || is_set yaml_entry "static_files")
  = true /\
  is_set yaml_entry "static_dir" && is_set yaml_entry "static_files" = false /\
  h = handler_of yaml_entry.
Proof.
  rewrite from_yaml_returns, dict_getitem_present, unrecognized_None,
    passes_field_ok, cross_field_error_None.
  unfold static_defined, is_set. cbn [script static_dir static_files handler_of].
  tauto.
Qed.

Lemma url_present yaml_entry :
  In (VStr "url") (map fst yaml_entry) ->
  dict_getitem yaml_entry "url" = Some (dict_get yaml_entry "url").
Proof.
  intros H. apply dict_getitem_present in H. unfold dict_get.
  destruct (dict_getitem yaml_entry "url"); [reflexivity | contradiction].
Qed.

(** Every rule returns a verdict, except the expiration pattern on a value
    that is not a string. *)
Lemma rule_total field rule v :
  In (field, rule) FIELD_RULES ->
  (exists b, rule v = inr b) \/
  (field = "expiration" /\ is_str v = false /\ rule v = inl TypeError).
Proof.
  intros Hin. each_rule Hin; eauto.
  destruct v; cbn [expiration_match is_str]; eauto.
Qed.

Lemma for_each_app (A : Type) (xs ys : list A) body : forall h,
  for_each (xs ++ ys) body h =
  match for_each xs body h with
  | inl e => inl e
  | inr (_, h') => for_each ys body h'
  end.
Proof.
  induction xs as [| x xs IH]; intros h; [reflexivity |].
  cbn [app]. rewrite !for_each_cons.
  destruct (body x h) as [e | [[] h']]; [reflexivity | apply IH].
Qed.

Lemma find_first (A : Type) (f : A -> bool) before x after :
  (forall y, In y before -> f y = false) -> f x = true ->
  find f (before ++ x :: after) = Some x.
Proof.
  intros Hbefore Hx. induction before as [| y before IH]; cbn [app find].
  - now rewrite Hx.
  - rewrite (Hbefore y) by (left; reflexivity). apply IH.
    intros z Hz. apply Hbefore. now right.
Qed.

Lemma passes_one yaml_entry field rule :
  In (field, rule) FIELD_RULES ->
  passes yaml_entry (field, rule) <-> field_ok yaml_entry field.
Proof.
  intros Hin. unfold passes, field_ok. cbn [fst snd].
  now rewrite is_none_true, (rule_accepts _ Hin).
Qed.

(** X2: the only exceptions that leave [from_yaml] are
    AppEngineConfigException and TypeError, and a TypeError only when the
    entry's expiration is neither null nor a string; it never raises
    KeyError or AttributeError. *)
Theorem from_yaml_exception_kinds yaml_entry e :
  from_yaml yaml_entry = inl e ->
  match e with
  | AppEngineConfigException _ => True
  | TypeError =>
      is_set yaml_entry "expiration" = true /\
      is_str (dict_get yaml_entry "expiration") = false
  | _ => False
  end.
Proof.
  intros H. apply from_yaml_raises in H as [[m ->] | (-> & Hn & Hs)].
  - exact I.
  - unfold is_set, is_not_none. now rewrite Hn.
Qed.

Lemma from_yaml_exception_kinds_witness :
  is_set [ (VStr "url", VStr "/"); (VStr "expiration", VInt 45) ] "expiration"
  = true /\
  is_str (dict_get [ (VStr "url", VStr "/"); (VStr "expiration", VInt 45) ]
                   "expiration") = false.
Proof.
  exact (@from_yaml_exception_kinds
           [ (VStr "url", VStr "/"); (VStr "expiration", VInt 45) ]
           TypeError eq_refl).
Defined.

(** X3: [from_yaml] raises TypeError exactly on the entries that have the
    key url and only recognized keys, whose application_readable and
    auth_fail_action (the two rules applied before expiration) are fine,
    and whose expiration is set to something that is not a string. *)
Theorem from_yaml_TypeError_iff yaml_entry :
  from_yaml yaml_entry = inl TypeError <->
  In (VStr "url") (map fst yaml_entry) /\
  (forall key, In key (map fst yaml_entry) -> recognized key) /\
  field_ok yaml_entry "application_readable" /\
  field_ok yaml_entry "auth_fail_action" /\
  is_set yaml_entry "expiration" = true /\
  is_str (dict_get yaml_entry "expiration") = false.
Proof.
  rewrite from_yaml_run, <- dict_getitem_present, <- unrecognized_None.
  destruct (dict_getitem yaml_entry "url") as [u |];
    [| split; [discriminate | intros [H _]; now contradiction H]].
  destruct (unrecognized yaml_entry) as [f |];
    [split; [discriminate | intros (_ & H & _); discriminate] |].
  change FIELD_RULES with
    ([nth 0 FIELD_RULES ("", expiration_match);
      nth 1 FIELD_RULES ("", expiration_match)]
     ++ skipn 2 FIELD_RULES).
  rewrite for_each_app.
  destruct (for_each _ (apply_rule yaml_entry) (Handler_init u))
    as [e | [[] h1]] eqn:Hpre.
  - (* one of the first two rules raised: it returned a false result *)
    apply rules_loop_raises in Hpre as (field & rule & Hin & Hn & Hr).
    assert (Hrule : In (field, rule) FIELD_RULES /\
                    (field = "application_readable" \/
                     field = "auth_fail_action")).
    { cbn [nth FIELD_RULES In] in Hin.
      destruct Hin as [Hin | [Hin | []]];
        apply pair_equal_spec in Hin; destruct Hin as [<- <-];
        (split; [unfold FIELD_RULES; cbn [In]; auto | auto]). }
    destruct Hrule as [Hrule Hf].
    assert (Hbad : ~ field_ok yaml_entry field).
    { intros Hok. apply (passes_one yaml_entry Hrule) in Hok.
      destruct Hok as [Hp | Hp]; cbn [fst snd] in Hp; [congruence |].
      destruct Hr as [Hr | [Hr _]]; congruence. }
    assert (He : e <> TypeError).
    { destruct Hr as [Hr | [_ ->]]; [| discriminate].
      destruct (rule_total (dict_get yaml_entry field) Hrule)
        as [[b Hb] | (-> & _)]; [congruence |].
      destruct Hf; discriminate. }
    split; [congruence |].
    intros (_ & _ & H1 & H2 & _). destruct Hf as [-> | ->]; contradiction.
  - apply rules_loop_completes in Hpre as [Hall _].
    assert (H1 : field_ok yaml_entry "application_readable" /\
                 field_ok yaml_entry "auth_fail_action").
    { cbn [nth FIELD_RULES] in Hall.
      inversion Hall as [| ? ? Ha Hall']; subst.
      inversion Hall' as [| ? ? Hb _]; subst.
      split; [revert Ha | revert Hb]; apply passes_one;
        unfold FIELD_RULES; cbn [In]; auto. }
    cbn [skipn FIELD_RULES]. rewrite for_each_cons, apply_rule_run.
    cbn [fst snd]. unfold is_set, is_not_none.
    destruct (is_none (dict_get yaml_entry "expiration")) eqn:Hn.
    + (* expiration is null: the ten rules left never raise TypeError *)
      split; [| intros (_ & _ & _ & _ & H & _); discriminate].
      destruct (for_each _ _ h1) as [e | [[] h2]] eqn:Hrest.
      * intros E. injection E as ->.
        apply rules_loop_raises in Hrest
          as (field & rule & Hin & _ & [Hr | [_ Hr]]); [| discriminate].
        exfalso. cbn [In] in Hin.
        repeat (destruct Hin as [Hin | Hin];
                [apply pair_equal_spec in Hin; destruct Hin as [_ <-];
                 discriminate |]).
        contradiction.
      * destruct (cross_field_error h2); discriminate.
    + destruct (dict_get yaml_entry "expiration") eqn:Ev;
        cbn [expiration_match is_str negb];
        try (split; [intros _; repeat split; try tauto; discriminate
                    | reflexivity]).
      (* a string: the rule returns a verdict *)
      split; [| intros (_ & _ & _ & _ & _ & H); discriminate].
      destruct (re_match_anchored EXPIRATION_RE s); [| discriminate].
      destruct (for_each _ _ _) as [e | [[] h2]] eqn:Hrest.
      * intros E. injection E as ->.
        apply rules_loop_raises in Hrest
          as (field & rule & Hin & _ & [Hr | [_ Hr]]); [| discriminate].
        exfalso. cbn [In] in Hin.
        repeat (destruct Hin as [Hin | Hin];
                [apply pair_equal_spec in Hin; destruct Hin as [_ <-];
                 discriminate |]).
        contradiction.
      * destruct (cross_field_error h2); discriminate.
Qed.

(** X4: when the entry has the key url, the unrecognized key that
    [from_yaml] reports is the first one in the entry's own order, whatever
    follows it and whatever the values are. *)
Theorem from_yaml_first_unrecognized yaml_entry before field after :
  In (VStr "url") (map fst yaml_entry) ->
  map fst yaml_entry = before ++ field :: after ->
  (forall key, In key before -> recognized key) ->
  ~ recognized field ->
  from_yaml yaml_entry
  = inl (AppEngineConfigException (UnrecognizedField field)).
Proof.
  intros Hurl Hkeys Hbefore Hfield.
  rewrite from_yaml_run, (url_present _ Hurl). unfold unrecognized.
  rewrite Hkeys, (find_first _ before field after); [reflexivity | |].
  - intros key Hkey. apply negb_false_iff, in_FIELD_RULES_recognized.
    now apply Hbefore.
  - apply negb_true_iff. destruct (in_FIELD_RULES field) eqn:E; [| reflexivity].
    apply in_FIELD_RULES_recognized in E. contradiction.
Qed.

Lemma from_yaml_first_unrecognized_witness :
  from_yaml [ (VStr "script", VInt 7); (VStr "handler", VStr "a.py");
              (VStr "url", VStr "/"); (VInt 3, VNone) ]
  = inl (AppEngineConfigException (UnrecognizedField (VStr "handler"))).
Proof.
  apply (@from_yaml_first_unrecognized _ [VStr "script"] (VStr "handler")
           [VStr "url"; VInt 3]).
  - cbn. auto.
  - reflexivity.
  - intros key [<- | []]. exists "script". split; [cbn; auto 20 | reflexivity].
  - intros (name & Hname & E). injection E as <-. cbn in Hname.
    repeat (destruct Hname as [Hname | Hname]; [discriminate |]).
    contradiction.
Defined.

(** X5: when the url and the keys are in order, the invalid value that
    [from_yaml] reports is that of the first field, in the order of
    FIELD_RULES, whose value is set and fails its predicate (for
    expiration: a string that fails it); the message carries the field and
    the value. *)
Theorem from_yaml_first_invalid yaml_entry before field rule after :
  In (VStr "url") (map fst yaml_entry) ->
  (forall key, In key (map fst yaml_entry) -> recognized key) ->
  FIELD_RULES = before ++ (field, rule) :: after ->
  (forall name, In name (map fst before) -> field_ok yaml_entry name) ->
  ~ field_ok yaml_entry field ->
  (field = "expiration" -> is_str (dict_get yaml_entry field) = true) ->
  from_yaml yaml_entry
  = inl (AppEngineConfigException
           (InvalidValue field (dict_get yaml_entry field))).
Proof.
  intros Hurl Hkeys Hrules Hbefore Hbad Hexp.
  assert (Hsub : forall entry, In entry before \/ entry = (field, rule) ->
                               In entry FIELD_RULES).
  { intros entry H. rewrite Hrules. apply in_or_app.
    destruct H as [H | ->]; [now left | right; now left]. }
  rewrite from_yaml_run, (url_present _ Hurl).
  apply unrecognized_None in Hkeys. rewrite Hkeys, Hrules, for_each_app.
  destruct (for_each before _ _) as [e | [[] h1]] eqn:Hpre.
  - exfalso.
    assert (Hall : Forall (passes yaml_entry) before).
    { apply Forall_forall. intros [f r] Hin.
      apply (passes_one _ (Hsub _ (or_introl Hin))), Hbefore.
      change f with (fst (f, r)). now apply in_map. }
    pose proof (proj2 (rules_loop_completes yaml_entry before
                         (Handler_init (dict_get yaml_entry "url")) tt _)
                  (conj Hall eq_refl)) as E.
    congruence.
  - rewrite for_each_cons, apply_rule_run. cbn [fst snd].
    assert (Hrule : In (field, rule) FIELD_RULES) by (apply Hsub; now right).
    destruct (is_none (dict_get yaml_entry field)) eqn:Hn.
    { exfalso. apply Hbad. left. now apply is_none_true. }
    destruct (rule_total (dict_get yaml_entry field) Hrule)
      as [[b Hb] | (E & Hs & _)].
    + rewrite Hb. destruct b; [| reflexivity].
      exfalso. apply Hbad. right. now apply (rule_accepts _ Hrule).
    + rewrite (Hexp E) in Hs. discriminate.
Qed.

Lemma from_yaml_first_invalid_witness :
  from_yaml [ (VStr "url", VInt 5); (VStr "script", VInt 7);
              (VStr "login", VStr "root"); (VStr "expiration", VStr "1d") ]
  = inl (AppEngineConfigException (InvalidValue "login" (VStr "root"))).
Proof.
  refine (@from_yaml_first_invalid
            [ (VStr "url", VInt 5); (VStr "script", VInt 7);
              (VStr "login", VStr "root"); (VStr "expiration", VStr "1d") ]
            (firstn 4 FIELD_RULES) "login"
            (fun val => inr (py_in val [VStr "optional"; VStr "required";
                                        VStr "admin"]))
            (skipn 5 FIELD_RULES) _ _ _ _ _ _).
  - cbn. auto.
  - intros key Hkey. cbn in Hkey.
    repeat (destruct Hkey as [<- | Hkey];
            [eexists; split; [| reflexivity]; cbn; auto 20 |]).
    contradiction.
  - reflexivity.
  - intros name Hname. cbn in Hname.
    destruct Hname as [<- | [<- | [<- | [<- | []]]]];
      try (left; reflexivity).
    right. exists "1d". split; [reflexivity |].
    apply re_match_anchored_grammar. reflexivity.
  - intros [H | H]; [discriminate |].
    cbn in H. intuition discriminate.
  - discriminate.
Defined.

(** X6: when the url, the keys and every field are in order, the outcome
    is decided by which of script, static_dir and static_files are set:
    script with a static target, then neither, then both static targets
    are refused in that order, each with its own message, and anything
    else returns the Handler. *)
Theorem from_yaml_cross_field_result yaml_entry :
  In (VStr "url") (map fst yaml_entry) ->
  (forall key, In key (map fst yaml_entry) -> recognized key) ->
  (forall name, In name recognized_fields -> field_ok yaml_entry name) ->
  from_yaml yaml_entry =
  let script := is_set yaml_entry "script" in
  let static_dir := is_set yaml_entry "static_dir" in
  let static_files := is_set yaml_entry "static_files" in
  if script && (static_dir || static_files)
  then inl (AppEngineConfigException ScriptAndStatic)
  else if negb script && negb (static_dir || static_files)
  then inl (AppEngineConfigException NoScriptNoStatic)
  else if static_dir && static_files
  then inl (AppEngineConfigException StaticDirAndStaticFiles)
  else inr (handler_of yaml_entry).
Proof.
  intros Hurl Hkeys Hfields.
  rewrite from_yaml_run, (url_present _ Hurl).
  apply unrecognized_None in Hkeys. rewrite Hkeys.
  apply passes_field_ok in Hfields.
  rewrite (proj2 (rules_loop_completes yaml_entry FIELD_RULES
                    (Handler_init (dict_get yaml_entry "url")) tt _)
             (conj Hfields eq_refl)).
  rewrite (fold_store_FIELD_RULES _ (url_present _ Hurl)).
  unfold cross_field_error, static_defined, is_set, is_not_none.
  cbn [script static_dir static_files handler_of].
  destruct (is_none (dict_get yaml_entry "script")),
    (is_none (dict_get yaml_entry "static_dir")),
    (is_none (dict_get yaml_entry "static_files")); reflexivity.
Qed.

Lemma from_yaml_cross_field_result_witness :
  from_yaml [ (VStr "url", VStr "/"); (VStr "static_dir", VStr "a");
              (VStr "static_files", VStr "b") ]
  = inl (AppEngineConfigException StaticDirAndStaticFiles).
Proof.
  apply (@from_yaml_cross_field_result
           [ (VStr "url", VStr "/"); (VStr "static_dir", VStr "a");
             (VStr "static_files", VStr "b") ]).
  - cbn. auto.
  - intros key Hkey. cbn in Hkey.
    repeat (destruct Hkey as [<- | Hkey];
            [eexists; split; [| reflexivity]; cbn; auto 20 |]).
    contradiction.
  - intros name Hname. cbn in Hname.
    repeat (destruct Hname as [<- | Hname];
            [(left; reflexivity) || (right; cbn; eauto) |]).
    contradiction.
Defined.

Lemma rules_loop_ext yaml_entry1 yaml_entry2 rules :
  (forall field rule, In (field, rule) rules ->
     dict_get yaml_entry1 field = dict_get yaml_entry2 field) ->
  forall h, for_each rules (apply_rule yaml_entry1) h
            = for_each rules (apply_rule yaml_entry2) h.
Proof.
  induction rules as [| [field rule] rules IH]; intros Hsame h;
    [reflexivity |].
  rewrite !for_each_cons, !apply_rule_run. cbn [fst snd].
  rewrite (Hsame field rule) by now left.
  destruct (is_none _); [apply IH; intros; apply (Hsame _ rule0); now right |].
  destruct (rule _) as [e | []]; try reflexivity.
  apply IH. intros f r Hin. apply (Hsame f r). now right.
Qed.

(** X7: among entries that have the key url and only recognized keys,
    the result of [from_yaml], the Handler or the exception, depends only
    on the values of the recognized fields: the order of the keys does not
    matter, and a key with a null value counts as absent. *)
Theorem from_yaml_depends_on_fields yaml_entry1 yaml_entry2 :
  In (VStr "url") (map fst yaml_entry1) ->
  In (VStr "url") (map fst yaml_entry2) ->
  (forall key, In key (map fst yaml_entry1) -> recognized key) ->
  (forall key, In key (map fst yaml_entry2) -> recognized key) ->
  (forall name, In name recognized_fields ->
     dict_get yaml_entry1 name = dict_get yaml_entry2 name) ->
  from_yaml yaml_entry1 = from_yaml yaml_entry2.
Proof.
  intros Hu1 Hu2 Hk1 Hk2 Hsame.
  rewrite !from_yaml_run, (url_present _ Hu1), (url_present _ Hu2).
  apply unrecognized_None in Hk1, Hk2. rewrite Hk1, Hk2.
  rewrite (Hsame "url") by (cbn; auto).
  rewrite (rules_loop_ext yaml_entry1 yaml_entry2); [reflexivity |].
  intros field rule Hin. apply Hsame. exact (rule_has_field Hin).
Qed.

Lemma from_yaml_depends_on_fields_witness :
  from_yaml [ (VStr "url", VStr "/"); (VStr "script", VStr "a.py") ]
  = from_yaml [ (VStr "upload", VNone); (VStr "script", VStr "a.py");
                (VStr "url", VStr "/") ].
Proof.
  apply from_yaml_depends_on_fields.
  - cbn. auto.
  - cbn. auto.
  - intros key Hkey. cbn in Hkey.
    repeat (destruct Hkey as [<- | Hkey];
            [eexists; split; [| reflexivity]; cbn; auto 20 |]).
    contradiction.
  - intros key Hkey. cbn in Hkey.
    repeat (destruct Hkey as [<- | Hkey];
            [eexists; split; [| reflexivity]; cbn; auto 20 |]).
    contradiction.
  - intros name Hname. cbn in Hname.
    repeat (destruct Hname as [<- | Hname]; [reflexivity |]).
    contradiction.
Defined.

(** * More about to_api_dict *)

(** X8: on a validated Handler the output has exactly one of the two
    sections: a static Handler gets [staticFiles] and no [script], any
    other gets no [staticFiles] and a [script] section that holds the
    script, a string, under [scriptPath]. *)
Theorem to_api_dict_one_section yaml_entry h :
  from_yaml yaml_entry = inr h ->
  exists d,
    to_api_dict h = inr (d, h) /\
    if static_defined h
    then dict_getitem d "script" = None /\
         exists section, dict_getitem d "staticFiles" = Some (VDict section)
    else dict_getitem d "staticFiles" = None /\
         dict_getitem d "script"
         = Some (VDict [ (VStr "scriptPath", script h) ]) /\
         exists s, script h = VStr s.
Proof.
  intros H.
  destruct (@direct_loop_validated _ _ [ (VStr "urlRegex", url h) ] H)
    as (d1 & Hd1 & Hother & _).
  destruct (@api_dict_validated _ _ H) as (d1' & base & Hd1' & _ & E).
  assert (d1' = d1) by congruence. subst d1'.
  eexists. split; [rewrite to_api_dict_run, E; reflexivity |].
  assert (Hs : dict_getitem d1 "script" = None)
    by (rewrite Hother; [reflexivity |]; cbn; intuition discriminate).
  assert (Hf : dict_getitem d1 "staticFiles" = None)
    by (rewrite Hother; [reflexivity |]; cbn; intuition discriminate).
  destruct (static_defined h) eqn:Hstatic; rewrite !dict_getitem_set;
    literal_eqb.
  - split; [exact Hs | eauto].
  - split; [exact Hf |]. split; [reflexivity |].
    destruct (from_yaml_cross_field_invariant _ H) as [Hx _].
    rewrite Hstatic in Hx.
    destruct (@validated_attr _ _ "script" H) as [Ha [Hv | Hv]];
      [cbn; auto 20 | ..];
      change (attr h "script") with (Some (script h)) in Ha;
      injection Ha as Ha; rewrite <- Ha in Hv.
    + rewrite Hv in Hx. discriminate.
    + exact Hv.
Qed.

Lemma to_api_dict_one_section_witness :
  exists h d,
    from_yaml [ (VStr "url", VStr "/api"); (VStr "script", VStr "api.py");
                (VStr "upload", VStr "x") ] = inr h /\
    to_api_dict h = inr (d, h) /\
    dict_getitem d "staticFiles" = None /\
    dict_getitem d "script"
    = Some (VDict [ (VStr "scriptPath", VStr "api.py") ]).
Proof.
  eexists.
  destruct (@to_api_dict_one_section
              [ (VStr "url", VStr "/api"); (VStr "script", VStr "api.py");
                (VStr "upload", VStr "x") ] _ eq_refl) as (d & Hd & Hs).
  exists d. split; [reflexivity |]. split; [exact Hd |].
  cbn in Hs. destruct Hs as (Hf & Hs & _). split; assumption.
Defined.

Lemma dict_set_cases d k v key :
  In key (map fst (dict_set d k v)) -> In key (map fst d) \/ key = VStr k.
Proof.
  induction d as [| [k0 v0] d IH]; cbn [dict_set map fst In].
  - intros [<- | []]. now right.
  - destruct (py_eq k0 (VStr k)); cbn [map fst In]; [tauto |].
    intros [E | H]; [auto |]. destruct (IH H); auto.
Qed.

Lemma dict_set_NoDup d k v :
  NoDup (map fst d) -> NoDup (map fst (dict_set d k v)).
Proof.
  induction d as [| [k0 v0] d IH]; cbn [dict_set map fst]; intros H.
  - repeat constructor. intros [].
  - destruct (py_eq k0 (VStr k)) eqn:E; cbn [map fst]; [exact H |].
    inversion H as [| ? ? Hk0 Hd]; subst. constructor; [| now apply IH].
    intros Hin. apply dict_set_cases in Hin as [Hin | ->]; [contradiction |].
    assert (py_eq (VStr k) (VStr k) = true) by now apply py_eq_VStr_r.
    congruence.
Qed.

Lemma dict_set_head d k v item :
  hd_error d = Some item -> fst item <> VStr k ->
  hd_error (dict_set d k v) = Some item.
Proof.
  destruct d as [| [k0 v0] d]; cbn [hd_error dict_set]; [discriminate |].
  intros E Hne. injection E as <-. cbn [fst] in Hne.
  destruct (py_eq k0 (VStr k)) eqn:Ek; [| reflexivity].
  apply py_eq_VStr_r in Ek. contradiction.
Qed.

Lemma dict_set_shaped keys first d k v :
  shaped keys first d -> In k keys -> fst first <> VStr k ->
  shaped keys first (dict_set d k v).
Proof.
  intros (Hnd & Hkeys & Hhd) Hk Hne. repeat split.
  - now apply dict_set_NoDup.
  - intros key Hin. apply dict_set_cases in Hin as [Hin | ->]; eauto.
  - now apply dict_set_head.
Qed.

Lemma direct_loop_shaped h first fields : forall d0 d1,
  (forall name key, In (name, key) fields ->
     In key output_keys /\ fst first <> VStr key) ->
  shaped output_keys first d0 ->
  fold_result (direct_step h) fields d0 = inr d1 ->
  shaped output_keys first d1.
Proof.
  induction fields as [| [name key] fields IH]; intros d0 d1 Hf Hd0;
    cbn [fold_result].
  - intros E. injection E as <-. exact Hd0.
  - destruct (direct_step h d0 (name, key)) as [e | d'] eqn:Hstep;
      [discriminate |].
    apply IH; [intros n k Hin; apply (Hf n k); now right |].
    unfold direct_step in Hstep.
    destruct (attr h name) as [v |]; [| discriminate].
    destruct (is_not_none v); [| injection Hstep as <-; exact Hd0].
    destruct (translate key v) as [e | c]; [discriminate |].
    injection Hstep as <-.
    destruct (Hf name key) as [Hk Hne]; [now left |].
    now apply dict_set_shaped.
Qed.

(** Whenever [to_api_dict] returns, the keys of the output are distinct
    strings among the seven output keys, and its first item is urlRegex
    with the url. *)
Lemma to_api_dict_shaped h d h' :
  to_api_dict h = inr (d, h') ->
  shaped output_keys (VStr "urlRegex", url h) d.
Proof.
  rewrite to_api_dict_run. unfold api_dict.
  destruct (fold_result (direct_step h) API_FIELDS _) as [e | d1] eqn:Hd1;
    [discriminate |].
  assert (Hshape : shaped output_keys (VStr "urlRegex", url h) d1).
  { apply (@direct_loop_shaped h _ API_FIELDS
             [ (VStr "urlRegex", url h) ] d1); [| | exact Hd1].
    - intros name key Hin. each_pair Hin; (split; [cbn; auto 10 |]);
        discriminate.
    - repeat split.
      + repeat constructor. intros [].
      + intros key [<- | []]. exists "urlRegex". split; [reflexivity |].
        cbn. auto. }
  destruct (static_defined h).
  - destruct (static_section h) as [e | section]; [discriminate |].
    intros E. injection E as <- _.
    apply dict_set_shaped; [exact Hshape | cbn; auto 10 | discriminate].
  - intros E. injection E as <- _.
    apply dict_set_shaped; [exact Hshape | cbn; auto 10 | discriminate].
Qed.

(** X9: on every Handler that [from_yaml] returns, [to_api_dict] returns a
    mapping whose keys are distinct strings among urlRegex, securityLevel,
    login, authFailAction, redirectHttpResponseCode, staticFiles and
    script, and whose first item is urlRegex with the url. *)
Theorem to_api_dict_keys yaml_entry h :
  from_yaml yaml_entry = inr h ->
  exists d,
    to_api_dict h = inr (d, h) /\
    NoDup (map fst d) /\
    (forall key, In key (map fst d) ->
       exists k, key = VStr k /\ In k output_keys) /\
    hd_error d = Some (VStr "urlRegex", url h).
Proof.
  intros H. destruct (@to_api_dict_validated _ _ H) as (d & _ & E).
  exists d. split; [exact E |]. exact (to_api_dict_shaped _ E).
Qed.

Lemma to_api_dict_keys_witness :
  exists h d,
    from_yaml [ (VStr "url", VStr "/"); (VStr "static_dir", VStr "static");
                (VStr "login", VStr "admin") ] = inr h /\
    to_api_dict h = inr (d, h) /\
    NoDup (map fst d) /\
    hd_error d = Some (VStr "urlRegex", VStr "/").
Proof.
  eexists.
  destruct (@to_api_dict_keys
              [ (VStr "url", VStr "/"); (VStr "static_dir", VStr "static");
                (VStr "login", VStr "admin") ] _ eq_refl)
    as (d & Hd & Hnd & _ & Hhd).
  exists d. split; [reflexivity |]. split; [exact Hd |].
  split; [exact Hnd | exact Hhd].
Defined.

(** X10: on a Handler that is not static, whatever it holds, the five
    secondary static attributes have no effect on what [to_api_dict]
    returns or raises: they are only read in the static branch. *)
Theorem to_api_dict_script_ignores_secondary h name key v :
  In (name, key) STATIC_API_FIELDS ->
  static_defined h = false ->
  returned (to_api_dict (set_attr h name v)) = returned (to_api_dict h).
Proof.
  intros Hin Hstatic. rewrite !to_api_dict_run.
  assert (E : api_dict (set_attr h name v) = api_dict h).
  { destruct h. unfold api_dict.
    each_pair Hin;
      match goal with
      | |- context [static_defined (set_attr ?h ?n ?x)] =>
          change (static_defined (set_attr h n x)) with (static_defined h)
      end;
      rewrite Hstatic; reflexivity. }
  rewrite E. destruct (api_dict h); reflexivity.
Qed.

Lemma to_api_dict_script_ignores_secondary_witness :
  let h := set_attr (Handler_init (VStr "/api")) "script" (VStr "api.py") in
  returned (to_api_dict (set_attr h "expiration" (VStr "1d")))
  = inr [ (VStr "urlRegex", VStr "/api");
          (VStr "script", VDict [ (VStr "scriptPath", VStr "api.py") ]) ].
Proof.
  intros h.
  rewrite (@to_api_dict_script_ignores_secondary h "expiration" "expiration"
             (VStr "1d")).
  - reflexivity.
  - cbn. auto.
  - reflexivity.
Defined.

(** X11: the static section of a validated static Handler, key by key:
    the path is [static_dir] when that is a non-empty string and
    [static_files] otherwise; [uploadPathRegex] is [upload] when set, else
    the generated pattern when [static_dir] is a non-empty string, else
    absent; each of the other four keys is there exactly when its
    attribute is set; the section has no other key. *)
Theorem to_api_dict_static_lookup yaml_entry h :
  from_yaml yaml_entry = inr h ->
  static_defined h = true ->
  exists d section,
    to_api_dict h = inr (d, h) /\
    dict_getitem d "staticFiles" = Some (VDict section) /\
    forall key, dict_getitem section key = static_lookup h key.
Proof.
  intros H Hstatic.
  destruct (@api_dict_validated _ _ H) as (d1 & base & _ & Hbase & E).
  rewrite Hstatic in E.
  exists (dict_set d1 "staticFiles" (VDict (apply_secondary h base))),
    (apply_secondary h base).
  split; [rewrite to_api_dict_run, E; reflexivity |].
  split; [rewrite dict_getitem_set; reflexivity |].
  assert (Hb : forall key,
            dict_getitem base key =
            if key =? "path"
            then Some (if truthy (static_dir h) then static_dir h
                       else static_files h)
            else if key =? "uploadPathRegex"
            then if truthy (static_dir h)
                 then match static_dir h with
                      | VStr s => Some (VStr (s ++ "/.*")%string)
                      | _ => None
                      end
                 else None
            else None).
  { intros key. revert Hbase. unfold static_base.
    destruct (@validated_attr _ _ "static_dir" H) as [Ha Hv];
      [cbn; auto 20 |].
    change (attr h "static_dir") with (Some (static_dir h)) in Ha.
    injection Ha as Ha. rewrite <- Ha in Hv.
    destruct Hv as [-> | [s ->]]; cbn [truthy py_format].
    - intros E'. injection E' as <-. cbn [dict_getitem].
      rewrite (String.eqb_sym key). fold (py_eq (VStr "path") (VStr key)).
      destruct (py_eq (VStr "path") (VStr key)) eqn:Ek;
        [reflexivity |].
      now destruct (key =? "uploadPathRegex").
    - destruct (negb (s =? "")); intros E'; injection E' as <-;
        cbn [dict_getitem];
        rewrite (String.eqb_sym key "path");
        fold (py_eq (VStr "path") (VStr key));
        (destruct (py_eq (VStr "path") (VStr key)); [reflexivity |]).
      + rewrite (String.eqb_sym key "uploadPathRegex").
        fold (py_eq (VStr "uploadPathRegex") (VStr key)).
        now destruct (py_eq (VStr "uploadPathRegex") (VStr key)).
      + now destruct (key =? "uploadPathRegex"). }
  intros key. unfold static_lookup, set_or_absent.
  unfold apply_secondary, STATIC_API_FIELDS. cbn [fold_left fst snd].
  read_attrs h. rewrite !dict_getitem_if_set, Hb.
  repeat match goal with
         | |- context [String.eqb key ?s] =>
             destruct (String.eqb_spec key s);
             [subst key; literal_eqb;
              rewrite ?andb_false_r, ?andb_true_r;
              repeat match goal with
                     | |- context [is_not_none ?x] => destruct (is_not_none x)
                     end;
              reflexivity |]
         end.
  rewrite ?andb_false_r. reflexivity.
Qed.

Lemma to_api_dict_static_lookup_witness :
  exists h d section,
    from_yaml [ (VStr "url", VStr "/f"); (VStr "static_files", VStr "f.html");
                (VStr "mime_type", VStr "text/html") ] = inr h /\
    to_api_dict h = inr (d, h) /\
    dict_getitem d "staticFiles" = Some (VDict section) /\
    dict_getitem section "path" = Some (VStr "f.html") /\
    dict_getitem section "uploadPathRegex" = None /\
    dict_getitem section "mimeType" = Some (VStr "text/html").
Proof.
  eexists.
  destruct (@to_api_dict_static_lookup
              [ (VStr "url", VStr "/f"); (VStr "static_files", VStr "f.html");
                (VStr "mime_type", VStr "text/html") ] _ eq_refl eq_refl)
    as (d & section & Hd & Hs & Hl).
  exists d, section. split; [reflexivity |]. split; [exact Hd |].
  split; [exact Hs |]. rewrite !Hl. repeat split.
Defined.

(** X12: [to_api_dict] trusts the object: on a Handler whose [secure] is
    set to a value outside the table (such a Handler never comes from
    [from_yaml]) it raises KeyError with that value, or TypeError when
    the value is a list or a mapping, and returns nothing. *)
Theorem to_api_dict_unvalidated_secure h :
  secure h <> VNone ->
  enum_constant "secure" (secure h) = None ->
  to_api_dict h
  = inl (if hashable (secure h) then KeyError (secure h) else TypeError).
Proof.
  intros Hset Hout. rewrite to_api_dict_run. unfold api_dict, API_FIELDS.
  cbn [fold_result direct_step].
  change (attr h "secure") with (Some (secure h)). cbv beta iota.
  rewrite (is_not_none_true Hset).
  destruct (hashable (secure h)) eqn:Hh.
  - rewrite (@translate_enum "secure" "securityLevel" _); [| cbn; auto | exact Hh].
    now rewrite Hout.
  - unfold translate.
    match goal with
    | |- context [getitem API_VALUES ?k] =>
        let r := eval vm_compute in (getitem API_VALUES k) in
        change (getitem API_VALUES k) with r
    end.
    cbn [subscript]. unfold getitem. now rewrite Hh.
Qed.

Lemma to_api_dict_unvalidated_secure_witness :
  to_api_dict (set_attr (Handler_init (VStr "/")) "secure" (VStr "maybe"))
  = inl (KeyError (VStr "maybe")).
Proof.
  apply (@to_api_dict_unvalidated_secure
           (set_attr (Handler_init (VStr "/")) "secure" (VStr "maybe"))).
  - discriminate.
  - reflexivity.
Defined.

(** * More about the expiration pattern *)

Lemma delta_term_chars t :
  delta_term t ->
  Forall (fun c => In c digits \/ In c units) t /\
  Exists (fun c => In c digits) t.
Proof.
  intros (ds & u & -> & Hne & Hds & Hu). split.
  - apply Forall_app. split.
    + eapply Forall_impl; [| exact Hds]. auto.
    + destruct Hu as [-> | (c & Hc & ->)]; [constructor |].
      constructor; [now right | constructor].
  - destruct ds as [| c ds]; [contradiction |].
    inversion Hds; subst. now apply Exists_cons_hd.
Qed.

Lemma delta_terms_chars body :
  delta_terms body ->
  Forall (fun c => In c digits \/ In c units \/ In c whitespace_chars) body /\
  Exists (fun c => In c digits) body.
Proof.
  induction 1 as [t Ht | t w rest Ht Hne Hw _ [IH1 IH2]].
  - apply delta_term_chars in Ht as [H1 H2]. split; [| exact H2].
    eapply Forall_impl; [| exact H1]. intros ?; cbn beta; tauto.
  - apply delta_term_chars in Ht as [H1 H2]. split.
    + rewrite !Forall_app. repeat split; [| | exact IH1].
      * eapply Forall_impl; [| exact H1]. intros ?; cbn beta; tauto.
      * eapply Forall_impl; [| exact Hw]. intros ?; cbn beta; tauto.
    + apply Exists_app. now left.
Qed.

(** X13: a string that the expiration rule accepts is made of digits, the
    eight unit letters and whitespace only, and has at least one digit. *)
Theorem expiration_accepted_chars s :
  expiration_match (VStr s) = inr true ->
  Forall (fun c => In c digits \/ In c units \/ In c whitespace_chars)
         (list_ascii_of_string s) /\
  Exists (fun c => In c digits) (list_ascii_of_string s).
Proof.
  unfold expiration_match. rewrite inr_true_iff, re_match_anchored_grammar.
  intros (lead & body & trail & -> & Hlead & Hbody & Htrail).
  apply delta_terms_chars in Hbody as [H1 H2]. split.
  - rewrite !Forall_app. repeat split; [| exact H1 |].
    + eapply Forall_impl; [| exact Hlead]. intros ?; cbn beta; tauto.
    + eapply Forall_impl; [| exact Htrail]. intros ?; cbn beta; tauto.
  - apply Exists_app. right. apply Exists_app. now left.
Qed.

Lemma expiration_accepted_chars_witness :
  Exists (fun c => In c digits) (list_ascii_of_string " 1d 12H ").
Proof.
  exact (proj2 (@expiration_accepted_chars " 1d 12H " eq_refl)).
Defined.

(** X14: for this pattern the second case of the end anchor, just before
    a final newline, never changes the verdict, because the trailing
    whitespace of the pattern takes the newline: the rule accepts a string
    exactly when the pattern matches all of it. *)
Theorem expiration_end_anchor s :
  re_match_anchored EXPIRATION_RE s
  = fullmatch EXPIRATION_RE (list_ascii_of_string s).
Proof.
  destruct (fullmatch EXPIRATION_RE (list_ascii_of_string s)) eqn:E.
  - unfold re_match_anchored. now rewrite E.
  - destruct (re_match_anchored EXPIRATION_RE s) eqn:E'; [| reflexivity].
    apply re_match_anchored_grammar in E'.
    apply matches_EXPIRATION_RE, fullmatch_matches in E'. congruence.
Qed.

Lemma list_ascii_of_string_app s1 s2 :
  list_ascii_of_string (s1 ++ s2)%string
  = list_ascii_of_string s1 ++ list_ascii_of_string s2.
Proof.
  induction s1 as [| c s1 IH]; cbn; [reflexivity | now rewrite IH].
Qed.

Lemma delta_terms_join body1 w body2 :
  delta_terms body1 -> w <> [] -> whitespace w -> delta_terms body2 ->
  delta_terms (body1 ++ w ++ body2).
Proof.
  intros H1 Hne Hw H2. induction H1 as [t Ht | t w' rest Ht Hne' Hw' _ IH].
  - now apply terms_more.
  - rewrite <- !app_assoc. apply terms_more; try assumption.
Qed.

(** X15: two accepted expirations joined by whitespace are an accepted
    expiration. *)
Theorem expiration_join s1 w s2 :
  expiration_match (VStr s1) = inr true ->
  expiration_match (VStr s2) = inr true ->
  w <> "" ->
  Forall (fun c => In c whitespace_chars) (list_ascii_of_string w) ->
  expiration_match (VStr (s1 ++ w ++ s2)) = inr true.
Proof.
  unfold expiration_match. rewrite !inr_true_iff, !re_match_anchored_grammar.
  unfold expiration_grammar. rewrite !list_ascii_of_string_app.
  intros (l1 & b1 & t1 & -> & Hl1 & Hb1 & Ht1)
         (l2 & b2 & t2 & -> & Hl2 & Hb2 & Ht2) Hne Hw.
  exists l1, (b1 ++ (t1 ++ list_ascii_of_string w ++ l2) ++ b2), t2.
  repeat split; try assumption.
  - now rewrite <- !app_assoc.
  - apply delta_terms_join; try assumption.
    + destruct w; [contradiction |]. destruct t1; discriminate.
    + unfold whitespace. rewrite !Forall_app. auto.
Qed.

Lemma expiration_join_witness :
  expiration_match
    (VStr ("1d 2h" ++ String "160" (String "009" "") ++ "30m")) = inr true.
Proof.
  apply (@expiration_join "1d 2h" (String "160" (String "009" "")) "30m").
  - reflexivity.
  - reflexivity.
  - discriminate.
  - repeat (constructor; [cbn; auto 20 |]). constructor.
Defined.
